(** * Prompt synchronisation job: a shallow embedding of [script.py]

    The development follows the script top-down: process configuration,
    the record source loader ([clone_repo], [fetch_current_prompts],
    [get_item], [collect_prompts_and_params]), the synchronisation engine
    ([sync_collection]) and the entry point ([main]).

    Python dictionaries are [gmap]s, Python lists are lists, exceptions are
    an inductive type threaded through a state-and-error monad, and every
    call on a collaborator (remote-store client, standard output) is
    recorded in the events of a run, so that "how many calls were made" is
    a statement about a list.

    The definitions come first: the script, then the remote store and the
    diff as the specification describes them (both are outside the
    repository), then the vocabulary of the properties and sample inputs.
    The properties follow in the order of the script. *)

From Stdlib Require Import ZArith Ascii String List Bool Lia.
From stdpp Require Import base option list gmap strings pretty.

Open Scope string_scope.
Open Scope list_scope.
Open Scope Z_scope.

Set Warnings "-register-all".

(* [simpl] computes appends of string literals. *)
#[local] Arguments String.append !s1 s2 / : simpl nomatch.

(* ===================================================================== *)
(** * Strings *)
(* ===================================================================== *)

Module Str.

(** [s.replace(old, new)] for one-character [old] and [new]. *)
Fixpoint replace (old new : ascii) (s : string) : string :=
  match s with
  | EmptyString => EmptyString
  | String c s' =>
      String (if Ascii.eqb c old then new else c) (replace old new s')
  end.

(** [s.startswith(p)]. *)
Fixpoint starts_with (p s : string) : bool :=
  match p, s with
  | EmptyString, _ => true
  | String _ _, EmptyString => false
  | String a p', String b s' => Ascii.eqb a b && starts_with p' s'
  end.

(** [s.replace(old, new)] for a non-empty [old]: occurrences are replaced
    from left to right without overlap. [skip] counts the characters of a
    matched occurrence that are still to be passed over. *)
Fixpoint replace_from (skip : nat) (old new : string) (s : string) : string :=
  match s with
  | EmptyString => EmptyString
  | String c s' =>
      match skip with
      | S k => replace_from k old new s'
      | O =>
          if starts_with old s
          then new +:+ replace_from (Nat.pred (String.length old)) old new s'
          else String c (replace_from O old new s')
      end
  end.

Definition replace_sub (old new s : string) : string := replace_from O old new s.

(** Does character [c] occur in [s]? *)
Fixpoint has_char (c : ascii) (s : string) : bool :=
  match s with
  | EmptyString => false
  | String c' s' => Ascii.eqb c' c || has_char c s'
  end.

(** Python's [needle in hay] on two [str] values: substring search. *)
Fixpoint str_in (needle hay : string) : bool :=
  starts_with needle hay ||
  match hay with
  | EmptyString => false
  | String _ hay' => str_in needle hay'
  end.

(** The words "contiguous substring", as a proposition. *)
Definition substring_of (needle hay : string) : Prop :=
  exists pre suf, hay = pre +:+ needle +:+ suf.

(** [s.lower()] on ASCII letters. The four accepted environment names are
    ASCII and contain no letter that a non-ASCII character lowers to, so
    the check of [ENVIRONMENT] does not see the difference. *)
Definition lower_ascii (c : ascii) : ascii :=
  let n := nat_of_ascii c in
  if (65 <=? n)%nat && (n <=? 90)%nat then ascii_of_nat (n + 32) else c.

Fixpoint lower (s : string) : string :=
  match s with
  | EmptyString => EmptyString
  | String c s' => String (lower_ascii c) (lower s')
  end.

(** [name.rfind('.')] as the pair (text before the last dot, text from the
    last dot on); [None] when there is no dot. *)
Fixpoint rsplit_dot (s : string) : option (string * string) :=
  match s with
  | EmptyString => None
  | String c s' =>
      match rsplit_dot s' with
      | Some (a, b) => Some (String c a, b)
      | None => if Ascii.eqb c "." then Some (EmptyString, s) else None
      end
  end.

(** [PurePath.suffix] and [PurePath.stem] of a final path component, as
    pathlib defines them: the split at the last dot counts only when the
    dot is neither the first nor the last character. *)
Definition suffix (name : string) : string :=
  match rsplit_dot name with
  | Some (String c a, String d (String e b)) => String d (String e b)
  | _ => EmptyString
  end.

Definition stem (name : string) : string :=
  match rsplit_dot name with
  | Some (String c a, String d (String e b)) => String c a
  | _ => name
  end.

End Str.

(* ===================================================================== *)
(** * Process configuration *)
(* ===================================================================== *)

Module Config.

(** [os.getenv(key, default)] over the process environment. *)
Definition getenv (environ : gmap string string) (key dflt : string) : string :=
  default dflt (environ !! key).

(** [ENVIRONMENT = os.getenv("ENVIRONMENT", "local").lower()] *)
Definition ENVIRONMENT (environ : gmap string string) : string :=
  Str.lower (getenv environ "ENVIRONMENT" "local").

(** [ENVIRONMENT not in {"local", "dev", "stage", "prod"}] raises. *)
Definition valid_environment (env : string) : bool :=
  bool_decide (env ∈ ["local"; "dev"; "stage"; "prod"]).

(** [IS_DRY_RUN = os.getenv("DRY_RUN", "0") in "1yY"] *)
Definition IS_DRY_RUN (environ : gmap string string) : bool :=
  Str.str_in (getenv environ "DRY_RUN" "0") "1yY".

End Config.

(* ===================================================================== *)
(** * Values, records and exceptions *)
(* ===================================================================== *)

(** What [json.load] produces. Numbers are integers here: no operation of
    the script inspects a number. An object keeps its members in file
    order. *)
Inductive json : Type :=
  | JNull
  | JBool (b : bool)
  | JNum (n : Z)
  | JStr (s : string)
  | JArr (items : list json)
  | JObj (members : list (string * json)).

#[global] Instance json_eq_dec : EqDecision json.
Proof.
  unfold EqDecision, Decision.
  fix IH 1.
  intros a b. decide equality.
  - apply bool_dec.
  - apply Z.eq_dec.
  - apply string_dec.
  - apply (@list_eq_dec _ IH).
  - apply (@list_eq_dec _). intros [k x] [l y].
    destruct (string_dec k l) as [->|]; [destruct (IH x y) as [->|]|];
      [left; reflexivity | right; congruence | right; congruence].
Defined.

(** A record is a Python [dict] with string keys. *)
Abbreviation record := (gmap string json).

(** [dict] built from the members of a parsed object: a later duplicate
    key overwrites an earlier one. *)
Definition dict_of_members (l : list (string * json)) : record :=
  foldl (fun m kv => <[kv.1 := kv.2]> m) ∅ l.

(** The exceptions the script can meet. *)
Inductive exn : Type :=
  | KintoException (msg : string)
  | FileNotFoundError (msg : string)
  | NotADirectoryError (msg : string)
  | IsADirectoryError (msg : string)
  | JSONDecodeError (msg : string)
  | KeyError (key : string)
  | TypeError (msg : string)
  | AttributeError (msg : string)
  | UnboundLocalError (var : string)
  | RuntimeError (msg : string)
  | OtherException (msg : string).

(** [str(e)], as interpolated into the log lines. *)
Definition exn_str (e : exn) : string :=
  match e with
  | KintoException m | FileNotFoundError m | NotADirectoryError m
  | IsADirectoryError m | JSONDecodeError m | TypeError m
  | AttributeError m | RuntimeError m | OtherException m => m
  | KeyError k => "'" +:+ k +:+ "'"
  | UnboundLocalError v =>
      "cannot access local variable '" +:+ v +:+
      "' where it is not associated with a value"
  end.

(** [except KintoException] *)
Definition is_kinto (e : exn) : bool :=
  match e with KintoException _ => true | _ => false end.

(** How a call ends. *)
Inductive outcome (A : Type) : Type :=
  | Return (a : A)
  | Raise (e : exn).
Arguments Return {A} a.
Arguments Raise {A} e.

(* ===================================================================== *)
(** * The server address *)
(* ===================================================================== *)

Module Server.

(** The dictionary literal of default addresses, one per environment. *)
Definition DEFAULTS : list (string * string) :=
  [("local", "http://localhost:8888/v1");
   ("dev", "https://remote-settings-dev.allizom.org/v1");
   ("stage", "https://remote-settings.allizom.org/v1");
   ("prod", "https://remote-settings.mozilla.org/v1")].

(** [{...}[ENVIRONMENT]]: subscripting the literal raises [KeyError] for a
    name that is not one of its keys. *)
Definition default_for (env : string) : outcome string :=
  match List.find (fun kv => String.eqb (fst kv) env) DEFAULTS with
  | Some kv => Return (snd kv)
  | None => Raise (KeyError env)
  end.

(** [SERVER = os.getenv("SERVER", {...}[ENVIRONMENT])]: the default is
    computed before [os.getenv] is called, whether [SERVER] is set or
    not. *)
Definition SERVER (environ : gmap string string) : outcome string :=
  match default_for (Config.ENVIRONMENT environ) with
  | Return dflt => Return (Config.getenv environ "SERVER" dflt)
  | Raise e => Raise e
  end.

End Server.

(* ===================================================================== *)
(** * The file system *)
(* ===================================================================== *)

Module FS.

Inductive node : Type :=
  | File (content : string)
  | Dir (entries : list (string * node)).

(** A path is the list of its components below the root. *)
Abbreviation path := (list string).

Definition entry (name : string) (es : list (string * node)) : option node :=
  snd <$> List.find (fun e => String.eqb (fst e) name) es.

Fixpoint lookup (p : path) (n : node) : option node :=
  match p with
  | [] => Some n
  | x :: p' =>
      match n with
      | Dir es => match entry x es with Some c => lookup p' c | None => None end
      | File _ => None
      end
  end.

(** [p.exists()] *)
Definition exists_ (p : path) (root : node) : bool :=
  match lookup p root with Some _ => true | None => false end.

(** [p.parent] *)
Definition parent (p : path) : path := removelast p.

(** [p / name] *)
Definition join (p : path) (name : string) : path := p ++ [name].

(** The final component, [p.name]. *)
Definition name (p : path) : string := List.last p EmptyString.

(** [shutil.rmtree(p)]: the entry named by [p] disappears with all below
    it. *)
Fixpoint remove (p : path) (n : node) : node :=
  match p, n with
  | [x], Dir es => Dir (List.filter (fun e => negb (String.eqb (fst e) x)) es)
  | x :: p', Dir es =>
      Dir (List.map (fun e => if String.eqb (fst e) x
                              then (fst e, remove p' (snd e)) else e) es)
  | _, _ => n
  end.

(** [str(p)] *)
Definition to_string (p : path) : string :=
  List.fold_right (fun c acc => "/" +:+ c +:+ acc) EmptyString p.

End FS.

(* ===================================================================== *)
(** * Collaborators and the world *)
(* ===================================================================== *)

(** A request queued on a batch session. *)
Inductive batch_op : Type :=
  | OpCreate (data : record)
  | OpUpdate (data : record)
  | OpDelete (id : json).

(** A call on the remote-store client that can raise. *)
Inductive request : Type :=
  | ServerInfo
  | GetRecords
  | Batch
  | BatchSend (ops : list batch_op)
  | BatchResults
  | RequestReview (message : string)
  | ApproveChanges.

(** Everything the script does that is visible outside it. A call on the
    client is recorded with the exception it raised, if any. *)
Inductive event : Type :=
  | EPrint (line : string)
  | ESentryInit
  | ECall (req : request) (raised : option exn)
  | ECreateRecord (data : record)
  | EUpdateRecord (data : record)
  | EDeleteRecord (id : json)
  | ERun (args : list string)
  | ERmtree (p : FS.path).

(** The [kinto_http.Client] capability over a remote store in state [St].
    Each call may change the store and either returns or raises.
    [batch_enter] is [client.batch()] up to the start of the [with] body,
    [batch_send] is what leaving the body without an exception does with
    the queued requests. *)
Record Client (St : Type) : Type := {
  server_info : St -> St * outcome record;
  get_records : St -> St * outcome (list record);
  batch_enter : St -> St * outcome unit;
  batch_send : list batch_op -> St -> St * outcome unit;
  batch_results : St -> St * outcome (list record);
  request_review : string -> St -> St * outcome unit;
  approve_changes : St -> St * outcome unit
}.
Arguments server_info {St}.
Arguments get_records {St}.
Arguments batch_enter {St}.
Arguments batch_send {St}.
Arguments batch_results {St}.
Arguments request_review {St}.
Arguments approve_changes {St}.

(** The library functions the loader calls: [tempfile.mkdtemp], which
    returns the directory it made or raises when it can make none,
    [subprocess.run] (its result is the pair of [returncode] and [stderr]),
    [json.load], [json.dumps], and the text Python interpolates for a value
    that is not a [str]. *)
Record Host : Type := {
  mkdtemp : string -> FS.node -> FS.node * outcome FS.path;
  subprocess_run : list string -> FS.node -> FS.node * outcome (Z * string);
  json_load : string -> outcome json;
  json_dumps : json -> string;
  py_repr : json -> string
}.

(** The module-level globals the functions read. *)
Record settings : Type := {
  ENVIRONMENT : string;
  GIT_TOKEN : option string;
  SENTRY_DSN : option string
}.

(** What the script works on: the file system, the remote store, and the
    requests queued on the open batch session. *)
Record world (St : Type) : Type := World {
  fs : FS.node;
  remote : St;
  queue : list batch_op
}.
Arguments World {St}.
Arguments fs {St}.
Arguments remote {St}.
Arguments queue {St}.

(** One run of a computation: the world it leaves, the events it produced
    in order, and how it ended. *)
Record run (St A : Type) : Type := Run {
  final : world St;
  events : list event;
  result : outcome A
}.
Arguments Run {St A}.
Arguments final {St A}.
Arguments events {St A}.
Arguments result {St A}.

(** Computations of the script. *)
Definition M (St A : Type) : Type := world St -> run St A.

#[global] Instance M_ret {St} : MRet (M St) :=
  fun A a w => Run w [] (Return a).

#[global] Instance M_bind {St} : MBind (M St) :=
  fun A B f m w =>
    match m w with
    | Run w1 ev1 (Return a) =>
        match f a w1 with
        | Run w2 ev2 o => Run w2 (ev1 ++ ev2) o
        end
    | Run w1 ev1 (Raise e) => Run w1 ev1 (Raise e)
    end.

Section Monad.
Context {St : Type}.

Definition raise {A} (e : exn) : M St A := fun w => Run w [] (Raise e).

(** [try: m  except <handles> as e: ...]: the handler's input is [inl e],
    the continuation's is [inr a]; an exception that is not handled goes
    on. *)
Definition try_ {A} (handles : exn -> bool) (m : M St A) : M St (exn + A) :=
  fun w =>
    match m w with
    | Run w1 ev1 (Return a) => Run w1 ev1 (Return (inr a))
    | Run w1 ev1 (Raise e) =>
        Run w1 ev1 (if handles e then Return (inl e) else Raise e)
    end.

Definition emit (e : event) : M St unit := fun w => Run w [e] (Return tt).

Definition print (line : string) : M St unit := emit (EPrint line).

Definition raised {A} (o : outcome A) : option exn :=
  match o with Return _ => None | Raise e => Some e end.

(** A call on the client: run on the remote store and recorded. *)
Definition call {A} (req : request) (op : St -> St * outcome A) : M St A :=
  fun w =>
    let '(s, o) := op (remote w) in
    Run (World (fs w) s (queue w)) [ECall req (raised o)] o.

(** A call on the batch client inside the [with] body: recorded and
    queued. *)
Definition enqueue (e : event) (op : batch_op) : M St unit :=
  fun w => Run (World (fs w) (remote w) (queue w ++ [op])) [e] (Return tt).

Definition reset_queue : M St unit :=
  fun w => Run (World (fs w) (remote w) []) [] (Return tt).

Definition get_queue : M St (list batch_op) :=
  fun w => Run w [] (Return (queue w)).

Definition get_fs : M St FS.node := fun w => Run w [] (Return (fs w)).

Definition set_fs (n : FS.node) : M St unit :=
  fun w => Run (World n (remote w) (queue w)) [] (Return tt).

(** A library function that works on the file system. *)
Definition on_fs {A} (f : FS.node -> FS.node * outcome A) : M St A :=
  fun w =>
    let '(n, o) := f (fs w) in
    Run (World n (remote w) (queue w)) [] o.

(** A library function without effect that may raise. *)
Definition pure_call {A} (o : outcome A) : M St A := fun w => Run w [] o.

(** [for x in l: acc = body(acc, x)] *)
Fixpoint for_acc {A B} (l : list A) (acc : B) (body : B -> A -> M St B) : M St B :=
  match l with
  | [] => mret acc
  | x :: l' => acc' ← body acc x; for_acc l' acc' body
  end.

(** [for x in l: body(x)] *)
Definition for_ {A} (l : list A) (body : A -> M St unit) : M St unit :=
  for_acc l tt (fun _ x => body x).

(** [d[key]] *)
Definition getitem (d : record) (key : string) : M St json :=
  match d !! key with
  | Some v => mret v
  | None => raise (KeyError key)
  end.

End Monad.

(* ===================================================================== *)
(** * Record source loader *)
(* ===================================================================== *)

Definition PROMPTS_REPO : string :=
  "https://github.com/Firefox-AI/ai-window-remote-settings-prompts.git".

(** The identifier of a record:
    [f"{feature}--{model.replace('.', '-')}--{version}"]. *)
Definition record_id (feature model version : string) : string :=
  feature +:+ "--" +:+ Str.replace "." "-" model +:+ "--" +:+ version.

(** Truth value of an optional string: unset and empty are both false. *)
Definition truthy (o : option string) : bool :=
  match o with
  | Some (String _ _) => true
  | _ => false
  end.

Section Loader.
Context {St : Type} (host : Host) (cfg : settings).

(** [open(p, "r").read()] *)
Definition read_text (p : FS.path) : M St string :=
  root ← get_fs;
  match FS.lookup p root with
  | Some (FS.File content) => mret content
  | Some (FS.Dir _) => raise (IsADirectoryError (FS.to_string p))
  | None => raise (FileNotFoundError (FS.to_string p))
  end.

(** [p.iterdir()] *)
Definition iterdir (p : FS.path) : M St (list FS.path) :=
  root ← get_fs;
  match FS.lookup p root with
  | Some (FS.Dir es) => mret (List.map (fun e => FS.join p (fst e)) es)
  | Some (FS.File _) => raise (NotADirectoryError (FS.to_string p))
  | None => raise (FileNotFoundError (FS.to_string p))
  end.

(** [p.exists()] *)
Definition path_exists (p : FS.path) : M St bool :=
  root ← get_fs; mret (FS.exists_ p root).

(** [shutil.rmtree(p)] *)
Definition rmtree (p : FS.path) : M St unit :=
  root ← get_fs;
  set_fs (FS.remove p root);;
  emit (ERmtree p).

(** What an f-string shows for a value. *)
Definition py_str (v : json) : string :=
  match v with
  | JStr s => s
  | _ => py_repr host v
  end.

(** [tempfile.mkdtemp] is called before the [try]: what it raises is not
    caught here. *)
Definition clone_repo (git_url : string) : M St (option FS.path) :=
  temp_dir ← on_fs (mkdtemp host "prompts_");
  let repo_path := FS.join temp_dir "ai-window-remote-settings-prompts" in
  r ← try_ (fun _ => true)
        (print ("🔄 Cloning " +:+ git_url +:+ "...");;
         git_url ←
           match GIT_TOKEN cfg with
           | Some (String c t) =>
               mret (Str.replace_sub "https://"
                       ("https://" +:+ String c t +:+ "@") git_url)
           | _ => raise (RuntimeError "GIT_TOKEN not found")
           end;
         let args := ["git"; "clone"; "--depth"; "1"; "--branch"; "main";
                      git_url; FS.to_string repo_path] in
         emit (ERun args);;
         result ← on_fs (subprocess_run host args);
         (if negb (fst result =? 0)
          then raise (RuntimeError ("Failed to clone repository: " +:+ snd result))
          else mret tt);;
         print "✅ Repository cloned successfully";;
         mret repo_path);
  match r with
  | inr repo_path => mret (Some repo_path)
  | inl e => print ("ERROR cloning repo: " +:+ exn_str e);; mret None
  end.

Definition get_item (major_version_dir : FS.path) (model_name : string)
  : M St record :=
  text ← read_text (FS.join major_version_dir (model_name +:+ ".json"));
  parsed ← pure_call (json_load host text);
  prompt ← read_text (FS.join major_version_dir (model_name +:+ ".md"));
  match parsed with
  | JObj members =>
      let data := dict_of_members members in
      let data := <["prompts" := JStr prompt]> data in
      feature ← getitem data "feature";
      model ← getitem data "model";
      match model with
      | JStr model =>
          let data :=
            <["id" := JStr (record_id (py_str feature) model
                              (Str.stem (FS.name major_version_dir)))]> data in
          parameters ← getitem data "parameters";
          mret (<["parameters" := JStr (json_dumps host parameters)]> data)
      | _ => raise (AttributeError "object has no attribute 'replace'")
      end
  | _ => raise (TypeError "object does not support item assignment")
  end.

Definition collect_prompts_and_params (prompts_dir : FS.path)
  : M St (list record) :=
  features ← iterdir prompts_dir;
  for_acc features [] (fun items feature_dir =>
    versions ← iterdir feature_dir;
    for_acc versions items (fun items major_version_dir =>
      files ← iterdir major_version_dir;
      for_acc files items (fun items f =>
        if String.eqb (Str.suffix (FS.name f)) ".md"
        then mret items
        else
          item ← get_item major_version_dir (Str.stem (FS.name f));
          mret (items ++ [item])))).

(** The [finally] block runs whether [collect_prompts_and_params]
    returned or raised; its last two statements read [records], which is
    unbound when the call raised. The guard on the prompts directory
    comes before the [try]. *)
Definition fetch_current_prompts (repo_path : FS.path) : M St (list record) :=
  let prompts_dir := FS.join repo_path "prompts" in
  present ← path_exists prompts_dir;
  if negb present
  then raise (FileNotFoundError
                ("Prompts directory not found at " +:+ FS.to_string prompts_dir))
  else
    r ← try_ (fun _ => true) (collect_prompts_and_params prompts_dir);
    parent_present ← path_exists (FS.parent repo_path);
    (if (parent_present : bool)
     then rmtree (FS.parent repo_path);;
          print "🧹 Cleaned up temporary directory"
     else mret tt);;
    match r with
    | inr records =>
        print ("📦 Found " +:+ pretty (length records) +:+ " prompt records");;
        mret records
    | inl _ => raise (UnboundLocalError "records")
    end.

End Loader.

(* ===================================================================== *)
(** * Synchronisation engine *)
(* ===================================================================== *)

(** The result of [collection_diff]: records to create, (old, new) pairs to
    update, records to delete. *)
Abbreviation diff_result :=
  (list record * list (record * record) * list record)%type.

(** Truth value of a list: empty is false. *)
Definition nonempty {A} (l : list A) : bool :=
  match l with [] => false | _ :: _ => true end.

Section Engine.
Context {St : Type} (cfg : settings).
(** [kinto_http.utils.collection_diff], imported by the script. *)
Context (collection_diff : list record -> list record -> diff_result).
Context (client : Client St).

(** [client.batch()] entered: the batch session starts with nothing
    queued. *)
Definition begin_batch : M St unit :=
  call Batch (batch_enter client);;
  reset_queue.

(** Leaving the [with] body: the queued requests are sent, and the
    session is reset when that returned. *)
Definition end_batch : M St unit :=
  ops ← get_queue;
  call (BatchSend ops) (batch_send client ops);;
  reset_queue.

(** [record.pop("last_modified", None)] changes the desired record in
    place; the record is sent as it is after that. The batch calls of the
    [with] body only queue their requests. *)
Definition sync_collection (source_records : list record) : M St Z :=
  print "📥 Fetching current destination records...";;
  fetched ← try_ is_kinto (call GetRecords (get_records client));
  match fetched with
  | inl e =>
      print ("❌ Failed to fetch existing records: " +:+ exn_str e);;
      mret 1
  | inr dest_records =>
      let '(to_create, to_update, to_delete) :=
        collection_diff source_records dest_records in
      let has_changes :=
        nonempty to_create || nonempty to_update || nonempty to_delete in
      if negb has_changes
      then
        print "✅ Records are already in sync. Nothing to do.";;
        mret 0
      else
        print ("🔧 Applying " +:+ pretty (length to_create) +:+ " creates, "
               +:+ pretty (length to_update) +:+ " updates, "
               +:+ pretty (length to_delete) +:+ " deletes...");;
        applied ← try_ is_kinto
          (begin_batch;;
           for_ to_create (fun record =>
             enqueue (ECreateRecord record) (OpCreate record));;
           for_ to_update (fun '(_, record) =>
             let record := delete "last_modified" record in
             enqueue (EUpdateRecord record) (OpUpdate record));;
           for_ to_delete (fun record =>
             id ← getitem record "id";
             enqueue (EDeleteRecord id) (OpDelete id));;
           end_batch;;
           results ← call BatchResults (batch_results client);
           print ("✅ Batch " +:+ pretty (length results)
                  +:+ " operations applied."));
        match applied with
        | inl e =>
            print ("❌ Failed to apply changes: " +:+ exn_str e);;
            mret 1
        | inr _ =>
            reviewed ← try_ is_kinto
              (if String.eqb (ENVIRONMENT cfg) "dev"
               then
                 print "🟢 Self-approving changes on dev...";;
                 call (RequestReview "r?") (request_review client "r?");;
                 call ApproveChanges (approve_changes client);;
                 print "✅ Changes self-approved."
               else
                 print "📤 Requesting review...";;
                 call (RequestReview "r?") (request_review client "r?");;
                 print "✅ Review requested.");
            match reviewed with
            | inl e =>
                print ("❌ Failed to update collection status: " +:+ exn_str e);;
                mret 1
            | inr _ => mret 0
            end
        end
  end.

End Engine.

(* ===================================================================== *)
(** * Entry point *)
(* ===================================================================== *)

Section Main.
Context {St : Type} (host : Host) (cfg : settings).
Context (collection_diff : list record -> list record -> diff_result).
Context (client : Client St).

(** [server_info['user']['id']] *)
Definition user_id (user : json) : M St json :=
  match user with
  | JObj members => getitem (dict_of_members members) "id"
  | _ => raise (TypeError "indices must be integers")
  end.

(** The first statement of [main]. *)
Definition init_sentry : M St unit :=
  if truthy (SENTRY_DSN cfg)
  then emit ESentryInit
  else print ("⚠️ Sentry is not configured. " +:+
              "Set SENTRY_DSN environment variable to enable it.").

(** The body of the first [try] of [main]. *)
Definition check_credentials : M St unit :=
  print "🔐 Checking credentials...";;
  info ← call ServerInfo (server_info client);
  print "✅";;
  match info !! "user" with
  | Some user =>
      id ← user_id user;
      print ("👤 Logged in as " +:+ py_str host id)
  | None => print "⚠️ Anonymous access"
  end.

Definition main : M St Z :=
  init_sentry;;
  checked ← try_ (fun _ => true) check_credentials;
  match checked with
  | inl e =>
      print ("❌ Failed to connect to Remote Settings server: " +:+ exn_str e);;
      mret 1
  | inr _ =>
      print (String "010" "=== Processing prompts ===");;
      print "📥 Fetching prompts ...";;
      repo_path ← clone_repo host cfg PROMPTS_REPO;
      match repo_path with
      | None => mret 1
      | Some repo_path =>
          prompts ← fetch_current_prompts host repo_path;
          result ← sync_collection cfg collection_diff client prompts;
          if negb (result =? 0) then mret result else mret 0
      end
  end.

(** How the process ends under [sys.exit(main())]. *)
Inductive exit : Type :=
  | ExitCode (code : Z)
  | Uncaught (e : exn).

Definition entry_point (w : world St) : world St * exit :=
  match main w with
  | Run w1 _ (Return code) => (w1, ExitCode code)
  | Run w1 _ (Raise e) => (w1, Uncaught e)
  end.

End Main.

(* ===================================================================== *)
(** * The remote store and its diff, from the specification *)
(* ===================================================================== *)

Module Kinto.

(** The identifier a record is compared by: the value under ["id"]. *)
Definition rid (r : record) : option json := r !! "id".

Definition find_by_id (i : option json) (l : list record) : option record :=
  List.find (fun r => bool_decide (rid r = i)) l.

Definition has_id (i : option json) (l : list record) : bool :=
  match find_by_id i l with Some _ => true | None => false end.

(** Modelled from the spec: the content comparison of [collection_diff],
    which is library code outside the repository. Two records have
    "identical content" when they agree on every field other than
    [last_modified]. *)
Definition records_equal (a b : record) : bool :=
  bool_decide (delete "last_modified" a = delete "last_modified" b).

(** Modelled from the spec: [kinto_http.utils.collection_diff], which is
    library code outside the repository. Desired and actual records are
    compared by identifier: present only in desired, to create; present in
    both with differing content, to update, as the pair (actual, desired);
    present only in actual, to delete; present in both with identical
    content, in none of the three. *)
Definition collection_diff (src dest : list record) : diff_result :=
  (List.filter (fun r => negb (has_id (rid r) dest)) src,
   omap (fun r =>
           match find_by_id (rid r) dest with
           | Some d => if records_equal d r then None else Some (d, r)
           | None => None
           end) src,
   List.filter (fun d => negb (has_id (rid d) src)) dest).

(** The identifiers on each side of a diff. *)
Definition ids (l : list record) : list (option json) := rid <$> l.

Definition update_ids (l : list (record * record)) : list (option json) :=
  (fun p => rid (snd p)) <$> l.

(** The review workflow of a collection. *)
Inductive review_status : Type :=
  | InSync
  | PendingReview (requested : bool)
  | Reviewed.

(** Modelled from the spec: the remote store behind the client capability,
    which is a service outside the repository. It holds the records of
    the collection, each carrying the revision stamp the store assigned,
    and the review status. *)
Record store : Type := Store {
  records : list record;
  clock : Z;
  status : review_status;
  last_batch : list batch_op;
  info : record
}.

(** Full-record replacement under the record's identifier. *)
Definition put (r : record) (l : list record) : list record :=
  List.filter (fun x => negb (bool_decide (rid x = rid r))) l ++ [r].

Definition del (i : json) (l : list record) : list record :=
  List.filter (fun x => negb (bool_decide (rid x = Some i))) l.

(** The store assigns the revision stamp. *)
Definition stamp (t : Z) (r : record) : record :=
  <["last_modified" := JNum t]> r.

Definition apply_op (s : list record * Z) (op : batch_op) : list record * Z :=
  let '(l, t) := s in
  match op with
  | OpCreate r | OpUpdate r => (put (stamp t r) l, t + 1)
  | OpDelete i => (del i l, t)
  end.

Definition apply_ops (ops : list batch_op) (s : list record * Z) : list record * Z :=
  foldl apply_op s ops.

(** Modelled from the spec: a client over [store] whose calls all return.
    Fetching returns all records; a batch applies its requests in order
    and leaves the collection pending review; requesting review records
    the request; approving marks the collection reviewed. *)
Definition client : Client store := {|
  server_info s := (s, Return (info s));
  get_records s := (s, Return (records s));
  batch_enter s := (s, Return tt);
  batch_send ops s :=
    let '(l, t) := apply_ops ops (records s, clock s) in
    (Store l t (PendingReview false) ops (info s), Return tt);
  batch_results s := (s, Return ((fun _ => ∅) <$> last_batch s));
  request_review _ s :=
    (Store (records s) (clock s) (PendingReview true) (last_batch s) (info s),
     Return tt);
  approve_changes s :=
    (Store (records s) (clock s) Reviewed (last_batch s) (info s), Return tt)
|}.

(** Where a call on the store raises its exception. *)
Inductive fault : Type :=
  | FetchFault
  | EnterFault
  | SendFault
  | ResultsFault
  | ReviewFault
  | ApproveFault.

Definition failure {A} (e : exn) (s : store) : store * outcome A :=
  (s, Raise e).

(** The same store behind a client with one call that raises [e]. *)
Definition faulty_client (f : fault) (e : exn) : Client store := {|
  server_info := server_info client;
  get_records s :=
    match f with FetchFault => failure e s | _ => get_records client s end;
  batch_enter s :=
    match f with EnterFault => failure e s | _ => batch_enter client s end;
  batch_send ops s :=
    match f with SendFault => failure e s | _ => batch_send client ops s end;
  batch_results s :=
    match f with ResultsFault => failure e s | _ => batch_results client s end;
  request_review m s :=
    match f with ReviewFault => failure e s | _ => request_review client m s end;
  approve_changes s :=
    match f with ApproveFault => failure e s | _ => approve_changes client s end
|}.

End Kinto.

(* ===================================================================== *)
(** * Vocabulary of the properties *)
(* ===================================================================== *)

(** A component that cannot be confused with the separator. *)
Definition dash_free (s : string) : Prop := Str.has_char "-" s = false.

(** Calls that belong to the batch: opening it, queueing on it, sending it
    and reading its results. *)
Definition is_batch_call (e : event) : bool :=
  match e with
  | ECall Batch _ | ECall (BatchSend _) _ | ECall BatchResults _
  | ECreateRecord _ | EUpdateRecord _ | EDeleteRecord _ => true
  | _ => false
  end.

Definition is_review_request (e : event) : bool :=
  match e with ECall (RequestReview _) _ => true | _ => false end.

Definition is_approval (e : event) : bool :=
  match e with ECall ApproveChanges _ => true | _ => false end.

(** How many events of a kind a run produced. *)
Definition count (p : event -> bool) (l : list event) : nat :=
  length (List.filter p l).

(** A call failed in the store's own way. *)
Definition kinto_failure (raised : option exn) : bool :=
  match raised with Some e => is_kinto e | None => false end.

(** The stage of [sync_collection] in which a call failed. *)
Inductive stage : Type := Fetch | Apply | Review.

Definition failed_in (s : stage) (e : event) : bool :=
  match s, e with
  | Fetch, ECall GetRecords r => kinto_failure r
  | Apply, ECall Batch r | Apply, ECall (BatchSend _) r
  | Apply, ECall BatchResults r => kinto_failure r
  | Review, ECall (RequestReview _) r | Review, ECall ApproveChanges r =>
      kinto_failure r
  | _, _ => false
  end.

Definition stage_failed (s : stage) (l : list event) : bool :=
  existsb (failed_in s) l.

(** The batch stage went through: the batch was sent and its results were
    read without an exception. *)
Definition batch_applied (l : list event) : bool :=
  existsb (fun e => match e with ECall (BatchSend _) None => true | _ => false end) l
  && existsb (fun e => match e with ECall BatchResults None => true | _ => false end) l.

(** The review request returned. *)
Definition review_returned (l : list event) : bool :=
  existsb (fun e => match e with ECall (RequestReview _) None => true | _ => false end) l.

(** Every record handed to the store's update operation in a run: the
    argument of each [update_record] call and each update request in a
    batch that was sent. *)
Definition op_payloads (op : batch_op) : list record :=
  match op with OpUpdate data => [data] | _ => [] end.

Definition event_payloads (e : event) : list record :=
  match e with
  | EUpdateRecord data => [data]
  | ECall (BatchSend ops) _ => flat_map op_payloads ops
  | _ => []
  end.

Definition update_payloads (l : list event) : list record :=
  flat_map event_payloads l.

(** The identifiers the delete loop reads before it stops: all of them
    (with [true]) or those before the first record without ["id"]. *)
Fixpoint delete_ids (l : list record) : list json * bool :=
  match l with
  | [] => ([], true)
  | r :: l' =>
      match r !! "id" with
      | Some i => let '(ids, ok) := delete_ids l' in (i :: ids, ok)
      | None => ([], false)
      end
  end.

(** The requests [sync_collection] queues for a diff: creates, then
    updates without [last_modified], then deletes by identifier. *)
Definition batch_of (to_create : list record) (to_update : list (record * record))
           (ids : list json) : list batch_op :=
  List.map OpCreate to_create
  ++ List.map (fun p => OpUpdate (delete "last_modified" (snd p))) to_update
  ++ List.map OpDelete ids.

(** A record without its revision stamp, and what a list of records holds
    under an identifier, stamp aside. *)
Definition strip (r : record) : record := delete "last_modified" r.

Definition content (k : option json) (l : list record) : option record :=
  strip <$> Kinto.find_by_id k l.

(** What one request does to the content under identifier [k], if it
    touches it, and what a sequence of requests does: the last request
    that touches [k] decides. *)
Definition touch (k : option json) (op : batch_op) : option (option record) :=
  match op with
  | OpCreate r | OpUpdate r =>
      if decide (Kinto.rid r = k) then Some (Some (strip r)) else None
  | OpDelete i => if decide (Some i = k) then Some None else None
  end.

Fixpoint effect (k : option json) (ops : list batch_op) : option (option record) :=
  match ops with
  | [] => None
  | op :: ops' =>
      match effect k ops' with
      | Some v => Some v
      | None => touch k op
      end
  end.

(** The class of an identifier in a diff. *)
Inductive diff_class : Type := ToCreate | ToUpdate | ToDelete | Unchanged.

(** The classes identifier [k] falls in: each list it occurs in, or
    [Unchanged] when it occurs in none of the three. *)
Definition classes (d : diff_result) (k : option json) : list diff_class :=
  let '(to_create, to_update, to_delete) := d in
  let c := bool_decide (k ∈ Kinto.ids to_create) in
  let u := bool_decide (k ∈ Kinto.update_ids to_update) in
  let x := bool_decide (k ∈ Kinto.ids to_delete) in
  (if c then [ToCreate] else [])
  ++ (if u then [ToUpdate] else [])
  ++ (if x then [ToDelete] else [])
  ++ (if c || u || x then [] else [Unchanged]).

(** The paths [iterdir] lists under [p]; nothing when [p] is not a
    directory. *)
Definition listing (root : FS.node) (p : FS.path) : list FS.path :=
  match FS.lookup p root with
  | Some (FS.Dir es) => List.map (fun e => FS.join p (fst e)) es
  | _ => []
  end.

Definition is_md (f : FS.path) : bool :=
  String.eqb (Str.suffix (FS.name f)) ".md".

(** The files of one version directory that are not [.md] files, each
    with the directory. *)
Definition version_files (root : FS.node) (v : FS.path) : list (FS.path * FS.path) :=
  List.map (fun f => (v, f)) (List.filter (fun f => negb (is_md f)) (listing root v)).

(** Those files over all versions of all features, in the order of the
    traversal. *)
Definition record_files (root : FS.node) (prompts_dir : FS.path)
  : list (FS.path * FS.path) :=
  flat_map (version_files root)
    (flat_map (listing root) (listing root prompts_dir)).

(** A regular file. *)
Definition is_file (root : FS.node) (p : FS.path) : Prop :=
  exists content, FS.lookup p root = Some (FS.File content).

(** A log line that reports a failure. *)
Definition is_failure_line (e : event) : bool :=
  match e with
  | EPrint line => Str.starts_with "❌ Failed to " line
  | _ => false
  end.

Definition is_fetch (e : event) : bool :=
  match e with ECall GetRecords _ => true | _ => false end.

Definition is_send (e : event) : bool :=
  match e with ECall (BatchSend _) _ => true | _ => false end.

Definition is_store_call (e : event) : bool :=
  match e with
  | ECall ServerInfo _ => false
  | ECall _ _ | ECreateRecord _ | EUpdateRecord _ | EDeleteRecord _ => true
  | _ => false
  end.

Definition is_run (e : event) : bool :=
  match e with ERun _ => true | _ => false end.

Definition is_rmtree (e : event) : bool :=
  match e with ERmtree _ => true | _ => false end.

(** The record the loader makes of one file: what [get_item] returns for
    the file's directory and base name. *)
Definition loaded {St} (host : Host) (w : world St)
           (vf : FS.path * FS.path) (item : record) : Prop :=
  result (get_item host (fst vf) (Str.stem (FS.name (snd vf))) w) = Return item.

(** The command line of the clone for a token. *)
Definition clone_args (token git_url : string) (repo_path : FS.path)
  : list string :=
  ["git"; "clone"; "--depth"; "1"; "--branch"; "main";
   Str.replace_sub "https://" ("https://" +:+ token +:+ "@") git_url;
   FS.to_string repo_path].

(* ===================================================================== *)
(** * Sample inputs *)
(* ===================================================================== *)

Module Sample.

(** A host on which acquisition succeeds: the temporary directory is
    [/tmp/prompts_x] and [git] exits with 0. *)
Definition host (cloned : list (string * FS.node)) : Host := {|
  mkdtemp prefix root :=
    (match root with
     | FS.Dir es => FS.Dir (es ++ [("tmp", FS.Dir [(prefix +:+ "x", FS.Dir [])])])
     | n => n
     end, Return ["tmp"; prefix +:+ "x"]);
  subprocess_run args root :=
    (match root with
     | FS.Dir [("tmp", FS.Dir [(t, FS.Dir [])])] =>
         FS.Dir [("tmp", FS.Dir [(t, FS.Dir
                   [("ai-window-remote-settings-prompts", FS.Dir cloned)])])]
     | n => n
     end, Return (0, EmptyString));
  json_load text :=
    Return (JObj [("feature", JStr "chat"); ("model", JStr "claude.3.5");
                  ("parameters", JObj [("temperature", JNum 1)])]);
  json_dumps j := "{temperature: 1}";
  py_repr j := "<value>"
|}.

(** The store's exception. *)
Definition refused : exn := KintoException "remote call failed".

Definition cfg (env : string) : settings :=
  {| ENVIRONMENT := env; GIT_TOKEN := Some "token"; SENTRY_DSN := None |}.

Definition empty_store : Kinto.store := Kinto.Store [] 0 Kinto.InSync [] ∅.

(** An empty file system in front of an empty store. *)
Definition start : world Kinto.store := World (FS.Dir []) empty_store [].

(** A repository checkout under a temporary directory, with and without
    its [prompts] directory. *)
Definition checkout (repo : list (string * FS.node)) : world Kinto.store :=
  World (FS.Dir [("tmp", FS.Dir [("prompts_x", FS.Dir [("repo", FS.Dir repo)])])])
        empty_store [].

Definition prompts_tree : list (string * FS.node) :=
  [("prompts",
    FS.Dir [("chat",
      FS.Dir [("v1",
        FS.Dir [("claude.3.5.json", FS.File "{}");
                ("claude.3.5.md", FS.File "You are a helpful assistant.")])])])].

Definition repo_path : FS.path := ["tmp"; "prompts_x"; "repo"].

(** The desired record of the specification's example. *)
Definition desired : list record :=
  [ {["id" := JStr "chat--claude-3-5--v1"; "prompts" := JStr "A"]} ].

(** A store that already holds that record with other content. *)
Definition stale_store : Kinto.store :=
  Kinto.Store
    [ {["id" := JStr "chat--claude-3-5--v1"; "prompts" := JStr "B";
        "last_modified" := JNum 7]};
      {["id" := JStr "chat--old--v0"; "prompts" := JStr "C";
        "last_modified" := JNum 3]} ]
    8 Kinto.InSync [] ∅.

Definition stale : world Kinto.store := World (FS.Dir []) stale_store [].

(** A store that holds the desired record as it is. *)
Definition synced_store : Kinto.store :=
  Kinto.Store
    [ {["id" := JStr "chat--claude-3-5--v1"; "prompts" := JStr "A";
        "last_modified" := JNum 7]} ]
    8 Kinto.Reviewed [] ∅.

Definition synced : world Kinto.store := World (FS.Dir []) synced_store [].

(** The desired record carrying a revision stamp of its own. *)
Definition desired_stamped : list record :=
  [ {["id" := JStr "chat--claude-3-5--v1"; "prompts" := JStr "A";
      "last_modified" := JNum 1]} ].

(** A checkout whose [prompts] directory holds a file where a feature
    directory is expected. *)
Definition broken_tree : list (string * FS.node) :=
  [("prompts", FS.Dir [("README.txt", FS.File "notes")])].

(** A host whose [git] exits with 128. *)
Definition host_git_fails : Host := {|
  mkdtemp := mkdtemp (host []);
  subprocess_run args root := (root, Return (128, "fatal: repository not found"));
  json_load := json_load (host []);
  json_dumps := json_dumps (host []);
  py_repr := py_repr (host [])
|}.


(** A store that cannot be reached for the credentials check. *)
Definition offline_client : Client Kinto.store := {|
  server_info s := (s, Raise (OtherException "connection refused"));
  get_records := get_records Kinto.client;
  batch_enter := batch_enter Kinto.client;
  batch_send := batch_send Kinto.client;
  batch_results := batch_results Kinto.client;
  request_review := request_review Kinto.client;
  approve_changes := approve_changes Kinto.client
|}.

(** A store holding a record without an identifier. *)
Definition anonymous_store : Kinto.store :=
  Kinto.Store [ {["prompts" := JStr "C"]} ] 1 Kinto.InSync [] ∅.

Definition anonymous : world Kinto.store :=
  World (FS.Dir []) anonymous_store [].

(** A checkout with a metadata file that has no prompt file beside it. *)
Definition lonely_tree : list (string * FS.node) :=
  [("prompts",
    FS.Dir [("chat",
      FS.Dir [("v1", FS.Dir [("claude.3.5.json", FS.File "{}")])])])].

Definition version_dir : FS.path := repo_path ++ ["prompts"; "chat"; "v1"].

(** A store whose server information names a user without an
    identifier. *)
Definition nameless : world Kinto.store :=
  World (FS.Dir [])
        (Kinto.Store [] 0 Kinto.InSync []
           {["user" := JObj [("bucket", JStr "main-workspace")]]})
        [].

End Sample.

(* ===================================================================== *)
(** * Properties of the string operations *)
(* ===================================================================== *)

Section StringFacts.

Lemma append_assoc (a b c : string) : (a +:+ b) +:+ c = a +:+ (b +:+ c).
Proof. induction a as [|x a IH]; simpl; [reflexivity | now rewrite IH]. Qed.

Lemma append_nil_r (a : string) : a +:+ EmptyString = a.
Proof. induction a as [|x a IH]; simpl; [reflexivity | now rewrite IH]. Qed.

Lemma starts_with_spec (p s : string) :
  Str.starts_with p s = true <-> exists suf, s = p +:+ suf.
Proof.
  revert s. induction p as [|a p IH]; intros s; simpl.
  - split; [intros _; now exists s | reflexivity].
  - destruct s as [|b s]; simpl.
    + split; [discriminate | intros [suf H]; discriminate].
    + rewrite andb_true_iff, Ascii.eqb_eq, IH. split.
      * intros [-> [suf ->]]. now exists suf.
      * intros [suf H]. injection H as -> ->. split; [reflexivity | now exists suf].
Qed.

Lemma str_in_unfold (n h : string) :
  Str.str_in n h =
  Str.starts_with n h ||
    match h with EmptyString => false | String _ h' => Str.str_in n h' end.
Proof. destruct h; reflexivity. Qed.

(** The search of [in] finds exactly the contiguous substrings. *)
Lemma str_in_spec (n h : string) :
  Str.str_in n h = true <-> Str.substring_of n h.
Proof.
  unfold Str.substring_of. split.
  - induction h as [|c h IH]; rewrite str_in_unfold, orb_true_iff.
    + intros [H | H]; [| discriminate].
      apply starts_with_spec in H as [suf ->]. now exists EmptyString, suf.
    + intros [H | H].
      * apply starts_with_spec in H as [suf ->]. now exists EmptyString, suf.
      * destruct (IH H) as (pre & suf & ->). now exists (String c pre), suf.
  - intros (pre & suf & ->). induction pre as [|c pre IH].
    + rewrite str_in_unfold, orb_true_iff. left.
      apply starts_with_spec. now exists suf.
    + simpl. rewrite IH. apply orb_true_r.
Qed.

Lemma has_char_app (c : ascii) (a b : string) :
  Str.has_char c (a +:+ b) = Str.has_char c a || Str.has_char c b.
Proof.
  induction a as [|x a IH]; simpl; [reflexivity |].
  now rewrite IH, orb_assoc.
Qed.

(** A string without the separator character is cut off at the first
    separator. *)
Lemma split_at_first (c : ascii) (a1 a2 x1 x2 : string) :
  Str.has_char c a1 = false -> Str.has_char c a2 = false ->
  a1 +:+ String c x1 = a2 +:+ String c x2 -> a1 = a2 /\ x1 = x2.
Proof.
  revert a2. induction a1 as [|y a1 IH]; intros [|z a2]; simpl; intros H1 H2 E.
  - now injection E.
  - injection E as <- _. now rewrite Ascii.eqb_refl in H2.
  - injection E as -> _. now rewrite Ascii.eqb_refl in H1.
  - injection E as -> E.
    apply orb_false_iff in H1 as [_ H1]. apply orb_false_iff in H2 as [_ H2].
    destruct (IH _ H1 H2 E) as [-> ->]. now split.
Qed.

(** ... and at the last separator when it is the tail that has none. *)
Lemma split_at_last (c : ascii) (a1 a2 v1 v2 : string) :
  Str.has_char c v1 = false -> Str.has_char c v2 = false ->
  a1 +:+ String c v1 = a2 +:+ String c v2 -> a1 = a2 /\ v1 = v2.
Proof.
  revert a2. induction a1 as [|y a1 IH]; intros [|z a2]; simpl; intros H1 H2 E.
  - now injection E.
  - injection E as _ E. subst v1.
    rewrite has_char_app in H1. simpl in H1.
    rewrite Ascii.eqb_refl, orb_true_r in H1. discriminate.
  - injection E as _ E. subst v2.
    rewrite has_char_app in H2. simpl in H2.
    rewrite Ascii.eqb_refl, orb_true_r in H2. discriminate.
  - injection E as -> E. destruct (IH _ H1 H2 E) as [-> ->]. now split.
Qed.

(** Replacing [old] by [new] loses nothing on strings that have no
    [new] to begin with. *)
Lemma replace_inj (old new : ascii) (m1 m2 : string) :
  Str.has_char new m1 = false -> Str.has_char new m2 = false ->
  Str.replace old new m1 = Str.replace old new m2 -> m1 = m2.
Proof.
  revert m2. induction m1 as [|x m1 IH]; intros [|y m2]; simpl;
    intros H1 H2 E; try discriminate; [reflexivity |].
  apply orb_false_iff in H1 as [Hx H1]. apply orb_false_iff in H2 as [Hy H2].
  injection E as Ec E. rewrite (IH _ H1 H2 E). f_equal.
  destruct (Ascii.eqb_spec x old) as [-> | Hxo],
           (Ascii.eqb_spec y old) as [-> | Hyo]; try reflexivity.
  - subst y. now rewrite Ascii.eqb_refl in Hy.
  - subst x. now rewrite Ascii.eqb_refl in Hx.
  - exact Ec.
Qed.

End StringFacts.

(* ===================================================================== *)
(** * Properties of the configuration *)
(* ===================================================================== *)

(** C10. The dry-run flag is on exactly when the value of [DRY_RUN] is a
    contiguous substring of ["1yY"]. The empty string switches it on; an
    unset variable (default ["0"]), ["0"] and ["yes"] do not. *)
Theorem dry_run_flag_parsing :
  (forall (environ : gmap string string) (s : string),
      Config.IS_DRY_RUN (<["DRY_RUN" := s]> environ) = true
      <-> Str.substring_of s "1yY")
  /\ (forall environ : gmap string string,
         Config.IS_DRY_RUN (<["DRY_RUN" := EmptyString]> environ) = true)
  /\ (forall environ : gmap string string,
         Config.IS_DRY_RUN (delete "DRY_RUN" environ) = false)
  /\ (forall environ : gmap string string,
         Config.IS_DRY_RUN (<["DRY_RUN" := "0"]> environ) = false)
  /\ (forall environ : gmap string string,
         Config.IS_DRY_RUN (<["DRY_RUN" := "yes"]> environ) = false).
Proof.
  unfold Config.IS_DRY_RUN, Config.getenv.
  split; [| repeat split]; intros;
    rewrite ?lookup_insert_eq, ?lookup_delete_eq;
    [exact (str_in_spec s "1yY") | reflexivity ..].
Qed.

(** The values that switch the flag on, listed. *)
Lemma dry_run_values (environ : gmap string string) (s : string) :
  Config.IS_DRY_RUN (<["DRY_RUN" := s]> environ) = true
  <-> s ∈ [EmptyString; "1"; "y"; "Y"; "1y"; "yY"; "1yY"].
Proof.
  unfold Config.IS_DRY_RUN, Config.getenv. rewrite lookup_insert_eq. simpl.
  split.
  - intros H.
    destruct s as [|a [|b [|c [|d s]]]]; simpl in H;
      repeat match type of H with
      | context [Ascii.eqb ?x ?y] =>
          destruct (Ascii.eqb_spec x y); subst; simpl in H
      end; try discriminate; set_solver.
  - intros H. repeat (apply elem_of_cons in H as [-> | H]; [reflexivity |]).
    now apply elem_of_nil in H.
Qed.

(** The environment name is lower-cased before it is checked, and
    defaults to ["local"]. *)
Example environment_names :
  Config.ENVIRONMENT {["ENVIRONMENT" := "Dev"]} = "dev"
  /\ Config.valid_environment (Config.ENVIRONMENT {["ENVIRONMENT" := "Dev"]}) = true
  /\ Config.ENVIRONMENT ∅ = "local"
  /\ Config.valid_environment (Config.ENVIRONMENT {["ENVIRONMENT" := "qa"]}) = false.
Proof. repeat split; reflexivity. Qed.

(** Path components as pathlib splits them, and the token as [clone_repo]
    puts it into the address. A version directory named with a dot loses
    what follows the dot. *)
Example path_components :
  Str.stem "claude.3.5.json" = "claude.3.5"
  /\ Str.suffix "claude.3.5.json" = ".json"
  /\ Str.suffix "claude.3.5.md" = ".md"
  /\ Str.stem "v1" = "v1"
  /\ Str.stem "v1.2" = "v1"
  /\ Str.stem ".hidden" = ".hidden"
  /\ Str.replace_sub "https://" "https://token@" PROMPTS_REPO
     = "https://token@github.com/Firefox-AI/ai-window-remote-settings-prompts.git".
Proof. repeat split; reflexivity. Qed.

(* ===================================================================== *)
(** * Properties of the identifier *)
(* ===================================================================== *)

(** What the identifier does determine: on triples whose components
    contain no ["-"], equal identifiers come from equal triples. *)
Theorem record_id_injective_dash_free (f1 m1 v1 f2 m2 v2 : string) :
  dash_free f1 -> dash_free m1 -> dash_free v1 ->
  dash_free f2 -> dash_free m2 -> dash_free v2 ->
  (record_id f1 m1 v1 = record_id f2 m2 v2 <-> (f1, m1, v1) = (f2, m2, v2)).
Proof.
  unfold dash_free. intros Hf1 Hm1 Hv1 Hf2 Hm2 Hv2. split.
  - unfold record_id. simpl. intros E.
    apply split_at_first in E as [-> E]; [| assumption ..].
    injection E as E.
    change (String "-" (String "-" ?v)) with ("-" +:+ String "-" v) in E.
    rewrite <- !append_assoc in E.
    apply split_at_last in E as [E ->]; [| assumption ..].
    apply (split_at_last "-" _ _ EmptyString EmptyString) in E as [E _]; [| reflexivity ..].
    now rewrite (replace_inj _ _ _ _ Hm1 Hm2 E).
  - now intros [= -> -> ->].
Qed.

Example record_id_distinct_models :
  record_id "chat" "gpt.4" "v1" <> record_id "chat" "gpt.5" "v1".
Proof.
  intros E.
  apply (proj1 (record_id_injective_dash_free "chat" "gpt.4" "v1"
                  "chat" "gpt.5" "v1"
                  eq_refl eq_refl eq_refl eq_refl eq_refl eq_refl)) in E.
  discriminate E.
Qed.

(** C2, at the input where it fails. The comment above the assignment
    calls the identifier unique, and the claim says that triples differing
    in a component have distinct identifiers. A model name written with a
    dot and the same name written with a dash are two triples with one
    identifier. *)
Lemma record_id_collision :
  record_id "chat" "gpt.4" "v1" = record_id "chat" "gpt-4" "v1"
  /\ ("chat", "gpt.4", "v1") <> ("chat", "gpt-4", "v1").
Proof. split; [reflexivity | discriminate]. Qed.

(** The separator itself can also move between components. *)
Lemma record_id_collision_separator :
  record_id "a--b" "c" "v1" = record_id "a" "b--c" "v1".
Proof. reflexivity. Qed.

(** The identifier the repository's test expects. *)
Example record_id_test :
  record_id "chat" "claude.3.5" "v1" = "chat--claude-3-5--v1".
Proof. reflexivity. Qed.

(* ===================================================================== *)
(** * Properties of the server address *)
(* ===================================================================== *)

(** X1. The default server address is looked up under the environment
    name when the module is loaded, before the name is checked. With one
    of the four names the address is the value of [SERVER], or the
    default listed for the name when [SERVER] is unset. With any other
    name the lookup raises [KeyError]: the module stops there and the
    check that follows it is not reached. *)
Theorem server_requires_valid_environment (environ : gmap string string) :
  let env := Config.ENVIRONMENT environ in
  (if Config.valid_environment env
   then exists dflt,
          In (env, dflt) Server.DEFAULTS
          /\ Server.SERVER environ = Return (default dflt (environ !! "SERVER"))
   else Server.SERVER environ = Raise (KeyError env)).
Proof.
  intros env. unfold Server.SERVER, Server.default_for, Config.valid_environment.
  fold env. generalize env. clear env. intros env.
  unfold Server.DEFAULTS. cbn [List.find fst snd].
  destruct (String.eqb_spec "local" env) as [<- | H1].
  { rewrite bool_decide_eq_true_2 by set_solver. eexists. split; [| reflexivity]. simpl. auto. }
  destruct (String.eqb_spec "dev" env) as [<- | H2].
  { rewrite bool_decide_eq_true_2 by set_solver. eexists. split; [| reflexivity]. simpl. auto. }
  destruct (String.eqb_spec "stage" env) as [<- | H3].
  { rewrite bool_decide_eq_true_2 by set_solver. eexists. split; [| reflexivity]. simpl. auto. }
  destruct (String.eqb_spec "prod" env) as [<- | H4].
  { rewrite bool_decide_eq_true_2 by set_solver. eexists. split; [| reflexivity]. simpl. auto. }
  rewrite bool_decide_eq_false_2; [reflexivity |].
  rewrite !elem_of_cons, elem_of_nil. intuition congruence.
Qed.


(* ===================================================================== *)
(** * Further properties of the identifier *)
(* ===================================================================== *)

Lemma replace_removes (old new : ascii) (s : string) :
  old <> new -> Str.has_char old (Str.replace old new s) = false.
Proof.
  intros Hne. induction s as [|c s IH]; simpl; [reflexivity |].
  rewrite IH, orb_false_r.
  destruct (Ascii.eqb_spec c old) as [-> | Hc].
  - apply Ascii.eqb_neq. congruence.
  - now apply Ascii.eqb_neq.
Qed.


(** X2. No dot of the model name reaches the identifier: the identifier
    has a dot exactly when the feature or the version has one. *)
Theorem record_id_dots (feature model version : string) :
  Str.has_char "." (record_id feature model version)
  = Str.has_char "." feature || Str.has_char "." version.
Proof.
  unfold record_id. rewrite !has_char_app.
  rewrite replace_removes by discriminate. simpl.
  now destruct (Str.has_char "." feature), (Str.has_char "." version).
Qed.


Lemma length_append (a b : string) :
  String.length (a +:+ b) = (String.length a + String.length b)%nat.
Proof. induction a as [|x a IH]; simpl; [reflexivity | now rewrite IH]. Qed.

Lemma append_inv_tail (a b c : string) : a +:+ c = b +:+ c -> a = b.
Proof.
  revert b. induction a as [|x a IH]; intros [|y b] H; simpl in H.
  - reflexivity.
  - exfalso. apply (f_equal String.length) in H. simpl in H.
    rewrite length_append in H. lia.
  - exfalso. apply (f_equal String.length) in H. simpl in H.
    rewrite length_append in H. lia.
  - injection H as -> H. now rewrite (IH _ H).
Qed.


(** X3. With the feature and the version fixed, two model names give one
    identifier exactly when they agree once their dots are replaced by
    dashes. *)
Theorem record_id_same_place (feature version m1 m2 : string) :
  record_id feature m1 version = record_id feature m2 version
  <-> Str.replace "." "-" m1 = Str.replace "." "-" m2.
Proof.
  unfold record_id. split.
  - intros H. apply String.app_inj in H. apply (String.app_inj "--") in H.
    now apply append_inv_tail in H.
  - now intros ->.
Qed.


(* ===================================================================== *)
(** * Properties of file names and of the address of the repository *)
(* ===================================================================== *)

(** The stem and the suffix of a name make up the name. *)
Lemma rsplit_dot_append (s a b : string) :
  Str.rsplit_dot s = Some (a, b) -> a +:+ b = s.
Proof.
  revert a b. induction s as [|c s IH]; simpl; intros a b H; [discriminate |].
  destruct (Str.rsplit_dot s) as [[a' b'] |].
  - injection H as <- <-. simpl. now rewrite (IH a' b' eq_refl).
  - destruct (Ascii.eqb c "."); [| discriminate]. now injection H as <- <-.
Qed.

Lemma stem_suffix (name : string) : Str.stem name +:+ Str.suffix name = name.
Proof.
  unfold Str.stem, Str.suffix.
  destruct (Str.rsplit_dot name) as [[a b] |] eqn:E.
  - apply rsplit_dot_append in E.
    destruct a as [|c a]; [now rewrite append_nil_r |].
    destruct b as [|d [|e b]]; try now rewrite append_nil_r.
    exact E.
  - now rewrite append_nil_r.
Qed.


Lemma replace_from_skip (old new o rest : string) :
  Str.replace_from (String.length o) old new (o +:+ rest)
  = Str.replace_from 0 old new rest.
Proof. induction o as [|c o IH]; simpl; [reflexivity | exact IH]. Qed.

Lemma starts_with_append (p s : string) : Str.starts_with p (p +:+ s) = true.
Proof. induction p as [|c p IH]; simpl; [reflexivity |]. now rewrite Ascii.eqb_refl. Qed.

Lemma replace_sub_head (old new rest : string) :
  old <> EmptyString ->
  Str.replace_sub old new (old +:+ rest) = new +:+ Str.replace_sub old new rest.
Proof.
  intros Hne. unfold Str.replace_sub. destruct old as [|c o]; [congruence |].
  change (String c o +:+ rest) with (String c (o +:+ rest)).
  cbn [Str.replace_from].
  change (String c (o +:+ rest)) with (String c o +:+ rest).
  rewrite starts_with_append. f_equal. simpl. apply replace_from_skip.
Qed.

(** The token goes between the scheme and the host of the repository's
    address. *)
Lemma prompts_repo_with_token (token : string) :
  Str.replace_sub "https://" ("https://" +:+ token +:+ "@") PROMPTS_REPO
  = "https://" +:+ token
    +:+ "@github.com/Firefox-AI/ai-window-remote-settings-prompts.git".
Proof.
  change PROMPTS_REPO with
    ("https://" +:+ "github.com/Firefox-AI/ai-window-remote-settings-prompts.git").
  rewrite replace_sub_head by discriminate.
  rewrite !append_assoc. reflexivity.
Qed.

(* From here on [simpl] leaves the log lines alone. *)
#[local] Arguments String.append : simpl never.

(* ===================================================================== *)
(** * Properties of the loader *)
(* ===================================================================== *)

Section FileSystemFacts.

Lemma entry_filter_out (x : string) (es : list (string * FS.node)) :
  FS.entry x (List.filter (fun e => negb (String.eqb (fst e) x)) es) = None.
Proof.
  unfold FS.entry. induction es as [|[n c] es IH]; simpl; [reflexivity |].
  destruct (String.eqb n x) eqn:E; simpl; [exact IH | now rewrite E].
Qed.

Lemma entry_map (x : string) (f : FS.node -> FS.node)
      (es : list (string * FS.node)) :
  FS.entry x (List.map (fun e => if String.eqb (fst e) x
                                 then (fst e, f (snd e)) else e) es)
  = f <$> FS.entry x es.
Proof.
  unfold FS.entry. induction es as [|[n c] es IH]; simpl; [reflexivity |].
  destruct (String.eqb n x) eqn:E; simpl; rewrite E; [reflexivity | exact IH].
Qed.

(** What [rmtree] removed is gone. *)
Lemma lookup_remove (p : FS.path) (n : FS.node) :
  p <> [] -> FS.lookup p (FS.remove p n) = None.
Proof.
  revert n. induction p as [|x p IH]; intros n Hp; [congruence |].
  destruct n as [c | es]; [destruct p; reflexivity |].
  destruct p as [|y p].
  - simpl. now rewrite entry_filter_out.
  - change (FS.remove (x :: y :: p) (FS.Dir es)) with
      (FS.Dir (List.map (fun e => if String.eqb (fst e) x
                                  then (fst e, FS.remove (y :: p) (snd e))
                                  else e) es)).
    change (FS.lookup (x :: ?q) (FS.Dir ?l)) with
      (match FS.entry x l with Some c => FS.lookup q c | None => None end).
    rewrite entry_map. destruct (FS.entry x es) as [c|]; simpl; [| reflexivity].
    apply IH. discriminate.
Qed.

End FileSystemFacts.

Section LoaderFacts.
Context {St : Type} (host : Host).

(** Without the prompts directory the loader raises before its [try]:
    nothing is logged and nothing is deleted. *)
Lemma fetch_current_prompts_missing (repo_path : FS.path) (w : world St) :
  FS.exists_ (FS.join repo_path "prompts") (fs w) = false ->
  fetch_current_prompts host repo_path w =
    Run w []
      (Raise (FileNotFoundError
                ("Prompts directory not found at "
                 +:+ FS.to_string (FS.join repo_path "prompts")))).
Proof.
  intros H.
  unfold fetch_current_prompts, path_exists, mbind, M_bind, get_fs, mret, M_ret.
  rewrite H. reflexivity.
Qed.

(** X4. With the prompts directory present, the temporary directory is
    gone when the loader is done, whether it returns the records or
    raises. *)
Theorem fetch_current_prompts_cleans_up (repo_path : FS.path) (w : world St) :
  FS.exists_ (FS.join repo_path "prompts") (fs w) = true ->
  FS.parent repo_path <> [] ->
  FS.exists_ (FS.parent repo_path)
    (fs (final (fetch_current_prompts host repo_path w))) = false.
Proof.
  intros H Hp.
  unfold fetch_current_prompts, path_exists, rmtree, mbind, M_bind, get_fs,
    set_fs, print, emit, mret, M_ret, try_.
  rewrite H. cbn.
  destruct (collect_prompts_and_params host (FS.join repo_path "prompts") w)
    as [w1 ev1 [recs | e]]; cbn;
    destruct (FS.exists_ (FS.parent repo_path) (fs w1)) eqn:E; cbn;
    try exact E; unfold FS.exists_; now rewrite lookup_remove.
Qed.

(** X5. When [collect_prompts_and_params] raises, the [finally] block
    still cleans up and then fails on the unbound [records]: the
    exception of the traversal is lost and [UnboundLocalError] is raised
    in its place. *)
Theorem fetch_current_prompts_collect_raises (repo_path : FS.path) (w : world St) e :
  FS.exists_ (FS.join repo_path "prompts") (fs w) = true ->
  result (collect_prompts_and_params host (FS.join repo_path "prompts") w)
    = Raise e ->
  result (fetch_current_prompts host repo_path w)
    = Raise (UnboundLocalError "records").
Proof.
  intros H He.
  unfold fetch_current_prompts, path_exists, rmtree, mbind, M_bind, get_fs,
    set_fs, print, emit, mret, M_ret, try_.
  rewrite H. cbn.
  destruct (collect_prompts_and_params host (FS.join repo_path "prompts") w)
    as [w1 ev1 [recs | e']]; cbn in *; [discriminate |].
  now destruct (FS.exists_ (FS.parent repo_path) (fs w1)).
Qed.

Lemma read_text_run (p : FS.path) (w : world St) :
  read_text p w =
    Run w []
      match FS.lookup p (fs w) with
      | Some (FS.File content) => Return content
      | Some (FS.Dir _) => Raise (IsADirectoryError (FS.to_string p))
      | None => Raise (FileNotFoundError (FS.to_string p))
      end.
Proof.
  unfold read_text, mbind, M_bind, get_fs, mret, M_ret, raise.
  destruct (FS.lookup p (fs w)) as [[c | es] |]; reflexivity.
Qed.

Lemma iterdir_run (p : FS.path) (w : world St) :
  iterdir p w =
    Run w []
      match FS.lookup p (fs w) with
      | Some (FS.Dir es) => Return (listing (fs w) p)
      | Some (FS.File _) => Raise (NotADirectoryError (FS.to_string p))
      | None => Raise (FileNotFoundError (FS.to_string p))
      end.
Proof.
  unfold iterdir, listing, mbind, M_bind, get_fs, mret, M_ret, raise.
  destruct (FS.lookup p (fs w)) as [[c | es] |]; reflexivity.
Qed.

(** What [get_item] does, case by case. *)
Lemma get_item_run (dir : FS.path) (model_name : string) (w : world St) :
  exists o, get_item host dir model_name w = Run w [] o
  /\ forall data, o = Return data ->
       exists text members prompt feature model parameters,
         FS.lookup (FS.join dir (model_name +:+ ".json")) (fs w) = Some (FS.File text)
         /\ json_load host text = Return (JObj members)
         /\ FS.lookup (FS.join dir (model_name +:+ ".md")) (fs w) = Some (FS.File prompt)
         /\ dict_of_members members !! "feature" = Some feature
         /\ dict_of_members members !! "model" = Some (JStr model)
         /\ (<["id" := JStr (record_id (py_str host feature) model
                               (Str.stem (FS.name dir)))]>
               (<["prompts" := JStr prompt]> (dict_of_members members)))
              !! "parameters" = Some parameters
         /\ data =
              <["parameters" := JStr (json_dumps host parameters)]>
                (<["id" := JStr (record_id (py_str host feature) model
                                   (Str.stem (FS.name dir)))]>
                   (<["prompts" := JStr prompt]> (dict_of_members members))).
Proof.
  unfold get_item. unfold mbind at 1. unfold M_bind at 1.
  rewrite read_text_run.
  destruct (FS.lookup (FS.join dir (model_name +:+ ".json")) (fs w))
    as [[text | es] |] eqn:Hj; try (eexists; split; [reflexivity | discriminate]).
  unfold mbind at 1. unfold M_bind at 1. unfold pure_call.
  destruct (json_load host text) as [parsed | e] eqn:Hl;
    [| eexists; split; [reflexivity | discriminate]].
  unfold mbind at 1. unfold M_bind at 1. rewrite read_text_run.
  destruct (FS.lookup (FS.join dir (model_name +:+ ".md")) (fs w))
    as [[prompt | es] |] eqn:Hm; try (eexists; split; [reflexivity | discriminate]).
  destruct parsed as [| | | | | members];
    try (eexists; split; [reflexivity | discriminate]).
  unfold getitem, mbind, M_bind, mret, M_ret, raise.
  rewrite lookup_insert_ne by discriminate.
  destruct (dict_of_members members !! "feature") as [feature |] eqn:Hf;
    [| eexists; split; [reflexivity | discriminate]].
  rewrite lookup_insert_ne by discriminate.
  destruct (dict_of_members members !! "model") as [model |] eqn:Hmo;
    [| eexists; split; [reflexivity | discriminate]].
  destruct model as [| | | model | |];
    try (eexists; split; [reflexivity | discriminate]).
  match goal with |- context [(<["id" := ?v]> ?d) !! "parameters"] =>
    destruct ((<["id" := v]> d) !! "parameters") as [parameters |] eqn:Hp end;
    [| eexists; split; [reflexivity | discriminate]].
  eexists. split; [reflexivity |]. intros data [= <-].
  exists text, members, prompt, feature, model, parameters.
  repeat split; auto.
Qed.

Lemma Forall2_flat_map_concat {A B C} (R : B -> C -> Prop) (g : A -> list B)
    (l : list A) (news : list (list C)) :
  Forall2 (fun x new => Forall2 R (g x) new) l news ->
  Forall2 R (flat_map g l) (concat news).
Proof.
  induction 1; simpl; [constructor |]. now apply Forall2_app.
Qed.

Lemma flat_map_flat_map {A B C} (f : A -> list B) (g : B -> list C) (l : list A) :
  flat_map g (flat_map f l) = flat_map (fun x => flat_map g (f x)) l.
Proof.
  induction l as [| x l IH]; simpl; [reflexivity |].
  now rewrite flat_map_app, IH.
Qed.

(** A loop whose body reads the world and appends to the accumulator. *)
Lemma for_acc_appends {A B} (P : A -> list B -> Prop)
    (body : list B -> A -> M St (list B)) (w : world St) :
  (forall acc x, exists o, body acc x w = Run w [] o
     /\ forall acc', o = Return acc' -> exists new, acc' = acc ++ new /\ P x new) ->
  forall l acc, exists o, for_acc l acc body w = Run w [] o
     /\ forall acc', o = Return acc' ->
          exists news, acc' = acc ++ concat news /\ Forall2 P l news.
Proof.
  intros Hbody. induction l as [| x l IH]; intros acc.
  - eexists. split; [reflexivity |]. intros acc' [= <-].
    exists []. split; [now rewrite app_nil_r | constructor].
  - cbn [for_acc]. unfold mbind, M_bind.
    destruct (Hbody acc x) as (o & -> & Hx).
    destruct o as [acc1 | e]; [| eexists; split; [reflexivity | discriminate]].
    destruct (Hx acc1 eq_refl) as (new & -> & Hnew).
    destruct (IH (acc ++ new)) as (o & -> & Hl).
    eexists. split; [reflexivity |]. intros acc' ->.
    destruct (Hl acc' eq_refl) as (news & -> & Hnews).
    exists (new :: news). split; [simpl; now rewrite app_assoc | now constructor].
Qed.

Lemma collect_prompts_and_params_run (prompts_dir : FS.path) (w : world St) :
  exists o, collect_prompts_and_params host prompts_dir w = Run w [] o
  /\ forall items, o = Return items ->
       Forall2 (loaded host w) (record_files (fs w) prompts_dir) items.
Proof.
  unfold collect_prompts_and_params. unfold mbind at 1. unfold M_bind at 1.
  rewrite iterdir_run.
  destruct (FS.lookup prompts_dir (fs w)) as [[c | es] |] eqn:Hp;
    try (eexists; split; [reflexivity | discriminate]).
  match goal with |- context [for_acc ?l ?a ?b w] =>
    pose proof (fun H => for_acc_appends
                (fun feature new =>
                   Forall2 (loaded host w)
                     (flat_map (version_files (fs w)) (listing (fs w) feature)) new)
                b w H l a) as HL end;
    destruct HL as (o & Heq & Ho); [| rewrite Heq; clear Heq].
  - intros acc feature. unfold mbind at 1. unfold M_bind at 1.
    rewrite iterdir_run.
    destruct (FS.lookup feature (fs w)) as [[c | vs] |] eqn:Hf;
      try (eexists; split; [reflexivity | discriminate]).
    match goal with |- context [for_acc ?l ?a ?b w] =>
      pose proof (fun H => for_acc_appends
                  (fun v new => Forall2 (loaded host w) (version_files (fs w) v) new)
                  b w H l a) as HL end;
    destruct HL as (o & Heq & Ho); [| rewrite Heq; clear Heq].
    + intros acc1 v. unfold mbind at 1. unfold M_bind at 1.
      rewrite iterdir_run.
      destruct (FS.lookup v (fs w)) as [[c | fs_] |] eqn:Hv;
        try (eexists; split; [reflexivity | discriminate]).
      match goal with |- context [for_acc ?l ?a ?b w] =>
        pose proof (fun H => for_acc_appends
                    (fun f new =>
                       Forall2 (loaded host w)
                         (if is_md f then [] else [(v, f)]) new)
                    b w H l a) as HL end;
    destruct HL as (o & Heq & Ho); [| rewrite Heq; clear Heq].
      * intros acc2 f. unfold is_md.
        destruct (String.eqb (Str.suffix (FS.name f)) ".md").
        -- eexists. split; [reflexivity |]. intros acc' [= <-].
           exists []. split; [now rewrite app_nil_r | constructor].
        -- unfold mbind, M_bind.
           destruct (get_item_run v (Str.stem (FS.name f)) w) as (o & Hg & _).
           destruct o as [item | e]; rewrite Hg;
             [| eexists; split; [reflexivity | discriminate]].
           eexists. split; [reflexivity |]. intros acc' [= <-].
           exists [item]. split; [reflexivity |].
           constructor; [| constructor]. unfold loaded. simpl. now rewrite Hg.
      * eexists. split; [reflexivity |]. intros acc' ->.
        destruct (Ho acc' eq_refl) as (news & -> & Hnews).
        exists (concat news). split; [reflexivity |].
        unfold version_files.
        apply Forall2_flat_map_concat in Hnews.
        replace (List.map (fun f => (v, f))
                   (List.filter (fun f => negb (is_md f)) (listing (fs w) v)))
          with (flat_map (fun f => if is_md f then [] else [(v, f)])
                  (listing (fs w) v)); [exact Hnews |].
        clear. induction (listing (fs w) v) as [| f l IH]; simpl; [reflexivity |].
        destruct (is_md f); simpl; now rewrite IH.
    + eexists. split; [reflexivity |]. intros acc' ->.
      destruct (Ho acc' eq_refl) as (news & -> & Hnews).
      exists (concat news). split; [reflexivity |].
      now apply Forall2_flat_map_concat in Hnews.
  - eexists. split; [reflexivity |]. intros items ->.
    destruct (Ho items eq_refl) as (news & -> & Hnews).
    apply Forall2_flat_map_concat in Hnews. simpl.
    unfold record_files. now rewrite flat_map_flat_map.
Qed.


Lemma Forall2_In_left {A B} (R : A -> B -> Prop) (l : list A) (l' : list B) x :
  Forall2 R l l' -> In x l -> exists y, In y l' /\ R x y.
Proof.
  induction 1 as [| a b l l' Hab _ IH]; intros Hin; [destruct Hin |].
  destruct Hin as [<- | Hin]; [exists b; simpl; auto |].
  destruct (IH Hin) as (y & Hy & HR). exists y; simpl; auto.
Qed.

Lemma name_join (p : FS.path) (name : string) : FS.name (FS.join p name) = name.
Proof. unfold FS.name, FS.join. apply last_last. Qed.

(** X6. A file with suffix [.json] that the traversal lists is the file
    [get_item] opens for it: the base name followed by [.json] is the
    file's own name. *)
Theorem get_item_opens_listed_file (dir : FS.path) (name : string) :
  Str.suffix name = ".json" ->
  FS.join dir (Str.stem (FS.name (FS.join dir name)) +:+ ".json")
  = FS.join dir name.
Proof.
  intros H. rewrite name_join. f_equal. rewrite <- H. apply stem_suffix.
Qed.

(** X7. The record [get_item] returns. Both files were regular files and
    the metadata parsed to an object with a feature, a model that is a
    string, and parameters. The record holds the identifier made of the
    feature, the model and the stem of the directory's name, the text of
    the prompt file, and the parameters serialised; every other field is
    as the metadata has it. An ["id"] or ["prompts"] of the metadata is
    overwritten. *)
Theorem get_item_record (dir : FS.path) (model_name : string) (w : world St)
        (data : record) :
  result (get_item host dir model_name w) = Return data ->
  exists text members prompt feature model parameters,
    FS.lookup (FS.join dir (model_name +:+ ".json")) (fs w) = Some (FS.File text)
    /\ FS.lookup (FS.join dir (model_name +:+ ".md")) (fs w) = Some (FS.File prompt)
    /\ json_load host text = Return (JObj members)
    /\ dict_of_members members !! "feature" = Some feature
    /\ dict_of_members members !! "model" = Some (JStr model)
    /\ dict_of_members members !! "parameters" = Some parameters
    /\ data !! "id"
       = Some (JStr (record_id (py_str host feature) model
                       (Str.stem (FS.name dir))))
    /\ data !! "prompts" = Some (JStr prompt)
    /\ data !! "parameters" = Some (JStr (json_dumps host parameters))
    /\ forall key, key <> "id" -> key <> "prompts" -> key <> "parameters" ->
         data !! key = dict_of_members members !! key.
Proof.
  intros H.
  destruct (get_item_run dir model_name w) as (o & Hrun & Hinv).
  rewrite Hrun in H. cbn [result] in H.
  destruct (Hinv data H)
    as (text & members & prompt & feature & model & parameters
        & Hj & Hl & Hm & Hf & Hmo & Hp & ->).
  exists text, members, prompt, feature, model, parameters.
  rewrite !lookup_insert_ne in Hp by discriminate.
  repeat split; auto.
  - rewrite lookup_insert_ne by discriminate. apply lookup_insert_eq.
  - rewrite !lookup_insert_ne by discriminate. apply lookup_insert_eq.
  - apply lookup_insert_eq.
  - intros key H1 H2 H3. now rewrite !lookup_insert_ne by congruence.
Qed.

(** X8. A metadata file without its prompt file: once the metadata is
    read and parsed, whatever it parsed to, [get_item] raises
    [FileNotFoundError] for the [.md] path, and reads nothing else. *)
Theorem get_item_missing_md (dir : FS.path) (model_name : string) (w : world St)
        (text : string) (parsed : json) :
  FS.lookup (FS.join dir (model_name +:+ ".json")) (fs w) = Some (FS.File text) ->
  json_load host text = Return parsed ->
  FS.lookup (FS.join dir (model_name +:+ ".md")) (fs w) = None ->
  get_item host dir model_name w =
    Run w [] (Raise (FileNotFoundError
                       (FS.to_string (FS.join dir (model_name +:+ ".md"))))).
Proof.
  intros Hj Hl Hm. unfold get_item.
  unfold mbind at 1. unfold M_bind at 1. rewrite read_text_run, Hj.
  unfold mbind at 1. unfold M_bind at 1. unfold pure_call. rewrite Hl.
  unfold mbind at 1. unfold M_bind at 1. rewrite read_text_run, Hm.
  reflexivity.
Qed.

(** X9. The traversal only reads: it leaves the file system, the store
    and the batch queue as they were and produces no event, whether it
    returns or raises. *)
Theorem collect_prompts_and_params_read_only (prompts_dir : FS.path)
        (w : world St) :
  final (collect_prompts_and_params host prompts_dir w) = w
  /\ events (collect_prompts_and_params host prompts_dir w) = [].
Proof.
  destruct (collect_prompts_and_params_run prompts_dir w) as (o & -> & _).
  split; reflexivity.
Qed.

(** X10. The records the traversal returns are, in the order of the
    traversal, the records [get_item] makes of the files that are not
    [.md] files, one for each, two levels below the prompts directory. *)
Theorem collect_one_record_per_file (prompts_dir : FS.path) (w : world St)
        (items : list record) :
  result (collect_prompts_and_params host prompts_dir w) = Return items ->
  Forall2 (loaded host w) (record_files (fs w) prompts_dir) items.
Proof.
  destruct (collect_prompts_and_params_run prompts_dir w) as (o & -> & H).
  exact (H items).
Qed.

(** X11. The traversal returns only when every file that is not an [.md]
    file has, under its base name, a [.json] file and an [.md] file in
    the same directory. A stray file of another kind with no such pair
    makes the load fail. *)
Theorem collect_needs_file_pairs (prompts_dir : FS.path) (w : world St)
        (items : list record) :
  result (collect_prompts_and_params host prompts_dir w) = Return items ->
  forall dir f, In (dir, f) (record_files (fs w) prompts_dir) ->
    is_file (fs w) (FS.join dir (Str.stem (FS.name f) +:+ ".json"))
    /\ is_file (fs w) (FS.join dir (Str.stem (FS.name f) +:+ ".md")).
Proof.
  destruct (collect_prompts_and_params_run prompts_dir w) as (o & -> & H).
  intros Hr dir f Hin. specialize (H items Hr).
  destruct (Forall2_In_left _ _ _ _ H Hin) as (item & _ & Hitem).
  unfold loaded in Hitem. cbn [fst snd] in Hitem.
  destruct (get_item_run dir (Str.stem (FS.name f)) w) as (o' & Hrun & Hinv).
  rewrite Hrun in Hitem. cbn [result] in Hitem.
  destruct (Hinv item Hitem) as (text & ? & prompt & ? & ? & ? & Hj & _ & Hm & _).
  split; [now exists text | now exists prompt].
Qed.

(** The runs of the loader once the prompts directory is there. *)
Lemma fetch_current_prompts_run (repo_path : FS.path) (w : world St) :
  FS.exists_ (FS.join repo_path "prompts") (fs w) = true ->
  let collected :=
    result (collect_prompts_and_params host (FS.join repo_path "prompts") w) in
  let parent := FS.parent repo_path in
  fetch_current_prompts host repo_path w =
    Run (if FS.exists_ parent (fs w)
         then World (FS.remove parent (fs w)) (remote w) (queue w)
         else w)
        ((if FS.exists_ parent (fs w)
          then [ERmtree parent; EPrint "🧹 Cleaned up temporary directory"]
          else [])
         ++ match collected with
            | Return records =>
                [EPrint ("📦 Found " +:+ pretty (length records)
                         +:+ " prompt records")]
            | Raise _ => []
            end)
        (match collected with
         | Return records => Return records
         | Raise _ => Raise (UnboundLocalError "records")
         end).
Proof.
  intros H collected parent. subst collected parent.
  unfold fetch_current_prompts, path_exists, rmtree, mbind, M_bind, get_fs,
    set_fs, print, emit, mret, M_ret, try_.
  rewrite H. cbn.
  destruct (collect_prompts_and_params_run (FS.join repo_path "prompts") w)
    as (o & -> & _).
  destruct o as [records | e]; cbn;
    destruct (FS.exists_ (FS.parent repo_path) (fs w)); cbn; try reflexivity;
    now destruct w.
Qed.

(** X12. The loader returns records exactly when the prompts directory
    is there and the traversal returned them. *)
Theorem fetch_current_prompts_returns (repo_path : FS.path) (w : world St)
        (records : list record) :
  result (fetch_current_prompts host repo_path w) = Return records
  <-> FS.exists_ (FS.join repo_path "prompts") (fs w) = true
      /\ result (collect_prompts_and_params host (FS.join repo_path "prompts") w)
         = Return records.
Proof.
  destruct (FS.exists_ (FS.join repo_path "prompts") (fs w)) eqn:E.
  - rewrite (fetch_current_prompts_run repo_path w E). cbn [result].
    destruct (result (collect_prompts_and_params host
                        (FS.join repo_path "prompts") w)).
    + split; [intros [= ->]; now split | intros [_ [= ->]]; reflexivity].
    + split; [discriminate | intros [_ ?]; discriminate].
  - rewrite (fetch_current_prompts_missing repo_path w E). cbn [result].
    split; [discriminate | intros [? _]; discriminate].
Qed.

(** X13. All the loader does to the world is to remove the directory
    above the checkout, at most once: the store and the batch queue are
    untouched, and the file system is as before or without that
    directory. *)
Theorem fetch_current_prompts_footprint (repo_path : FS.path) (w : world St) :
  let r := fetch_current_prompts host repo_path w in
  remote (final r) = remote w
  /\ queue (final r) = queue w
  /\ (fs (final r) = fs w
      \/ fs (final r) = FS.remove (FS.parent repo_path) (fs w))
  /\ (count is_rmtree (events r) <= 1)%nat
  /\ forall p, In (ERmtree p) (events r) -> p = FS.parent repo_path.
Proof.
  intros r. subst r.
  destruct (FS.exists_ (FS.join repo_path "prompts") (fs w)) eqn:E.
  - rewrite (fetch_current_prompts_run repo_path w E).
    cbn [final events].
    destruct (FS.exists_ (FS.parent repo_path) (fs w));
      destruct (result (collect_prompts_and_params host
                          (FS.join repo_path "prompts") w));
      cbn; repeat split; auto; intros p Hp;
      repeat (destruct Hp as [Hp | Hp]; try discriminate Hp;
              try (now injection Hp as <-)); try contradiction.
  - rewrite (fetch_current_prompts_missing repo_path w E). cbn.
    repeat split; auto. intros p [].
Qed.

(** The loader logs and removes; it makes no other event. *)
Lemma fetch_current_prompts_events (p : event -> bool) (repo_path : FS.path)
      (w : world St) :
  (forall line, p (EPrint line) = false) ->
  (forall q, p (ERmtree q) = false) ->
  existsb p (events (fetch_current_prompts host repo_path w)) = false.
Proof.
  intros Hp Hq.
  destruct (FS.exists_ (FS.join repo_path "prompts") (fs w)) eqn:E.
  - rewrite (fetch_current_prompts_run repo_path w E). cbn [events].
    destruct (FS.exists_ (FS.parent repo_path) (fs w));
      destruct (result (collect_prompts_and_params host
                          (FS.join repo_path "prompts") w));
      cbn; now rewrite ?Hp, ?Hq.
  - now rewrite (fetch_current_prompts_missing repo_path w E).
Qed.

End LoaderFacts.

Section AcquisitionFacts.
Context {St : Type} (host : Host) (cfg : settings).

(** The runs of [clone_repo], case by case. *)
Lemma clone_repo_cases (git_url : string) (w : world St) :
  let made := mkdtemp host "prompts_" (fs w) in
  let start := EPrint ("🔄 Cloning " +:+ git_url +:+ "...") in
  match snd made with
  | Raise e =>
      clone_repo host cfg git_url w =
        Run (World (fst made) (remote w) (queue w)) [] (Raise e)
  | Return temp_dir =>
      let repo_path := FS.join temp_dir "ai-window-remote-settings-prompts" in
      match GIT_TOKEN cfg with
      | Some (String c t) =>
          let args := clone_args (String c t) git_url repo_path in
          let ran := subprocess_run host args (fst made) in
          exists line,
          clone_repo host cfg git_url w =
            Run (World (fst ran) (remote w) (queue w))
                [start; ERun args; EPrint line]
                (match snd ran with
                 | Return (0, _) => Return (Some repo_path)
                 | _ => Return None
                 end)
      | _ =>
          clone_repo host cfg git_url w =
            Run (World (fst made) (remote w) (queue w))
                [start; EPrint "ERROR cloning repo: GIT_TOKEN not found"]
                (Return None)
      end
  end.
Proof.
  unfold clone_repo, clone_args, on_fs, try_, print, emit, raise,
    mbind, M_bind, mret, M_ret.
  cbv zeta.
  destruct (mkdtemp host "prompts_" (fs w)) as [root1 [temp_dir | e]];
    cbn [fst snd fs remote queue]; [| reflexivity].
  destruct (GIT_TOKEN cfg) as [[| c t] |]; try reflexivity.
  match goal with |- context [ERun ?a] => set (args := a) end.
  cbn [fs remote queue app].
  destruct (subprocess_run host args root1) as [root2 [[code err] | e]];
    cbn [fst snd fs remote queue app].
  - destruct code; cbn; eexists; reflexivity.
  - eexists; reflexivity.
Qed.

(** X14. The only exception that leaves [clone_repo] is one of
    [mkdtemp], which is called before the [try]: it is raised as it is,
    with nothing logged. Once the temporary directory is made, whatever
    the token is and whatever [git] does, [clone_repo] returns a path or
    nothing. In either case it leaves the store and the batch queue alone
    and removes nothing, so the temporary directory stays when the clone
    failed. *)
Theorem clone_repo_contained (git_url : string) (w : world St) :
  let r := clone_repo host cfg git_url w in
  match snd (mkdtemp host "prompts_" (fs w)) with
  | Return _ => exists p, result r = Return p
  | Raise e => result r = Raise e /\ events r = []
  end
  /\ remote (final r) = remote w
  /\ queue (final r) = queue w
  /\ count is_rmtree (events r) = 0%nat.
Proof.
  intros r. subst r. pose proof (clone_repo_cases git_url w) as H. cbv zeta in H.
  destruct (snd (mkdtemp host "prompts_" (fs w))) as [temp_dir | e].
  - destruct (GIT_TOKEN cfg) as [[| c t] |].
    + rewrite H. cbn. eauto.
    + destruct H as (line & ->). cbn [result final remote queue events].
      split; [| repeat split].
      destruct (snd _) as [[[| ? | ?] ?] | ?]; eauto.
    + rewrite H. cbn. eauto.
  - rewrite H. cbn. auto.
Qed.

(** X15. Without a token, unset or empty, [git] is not run: once the
    temporary directory is made, the result is no path, the failure is
    logged, and the file system is as [mkdtemp] left it. *)
Theorem clone_repo_without_token (git_url : string) (w : world St)
        (temp_dir : FS.path) :
  truthy (GIT_TOKEN cfg) = false ->
  snd (mkdtemp host "prompts_" (fs w)) = Return temp_dir ->
  let r := clone_repo host cfg git_url w in
  result r = Return None
  /\ count is_run (events r) = 0%nat
  /\ In (EPrint "ERROR cloning repo: GIT_TOKEN not found") (events r)
  /\ fs (final r) = fst (mkdtemp host "prompts_" (fs w)).
Proof.
  intros Ht Hd r. subst r. pose proof (clone_repo_cases git_url w) as H.
  cbv zeta in H. rewrite Hd in H.
  destruct (GIT_TOKEN cfg) as [[| c t] |]; try discriminate Ht;
    rewrite H; cbn [result events final fs]; repeat split; simpl; auto.
Qed.

(** X16. [clone_repo] returns a path exactly when the temporary
    directory was made, there is a token and [git] exits with 0, and the
    path is the repository's directory under the temporary directory. *)
Theorem clone_repo_path (git_url : string) (w : world St) (p : FS.path) :
  let made := mkdtemp host "prompts_" (fs w) in
  result (clone_repo host cfg git_url w) = Return (Some p)
  <-> exists temp_dir,
        snd made = Return temp_dir
        /\ p = FS.join temp_dir "ai-window-remote-settings-prompts"
        /\ exists token err,
             GIT_TOKEN cfg = Some token
             /\ token <> EmptyString
             /\ snd (subprocess_run host (clone_args token git_url p) (fst made))
                = Return (0, err).
Proof.
  intros made. subst made. pose proof (clone_repo_cases git_url w) as H.
  cbv zeta in H.
  destruct (snd (mkdtemp host "prompts_" (fs w))) as [temp_dir | e].
  - destruct (GIT_TOKEN cfg) as [[| c t] |].
    + rewrite H. cbn [result]. split; [discriminate |].
      intros (? & _ & _ & token & err & [= <-] & Hne & _). congruence.
    + destruct H as (line & ->). cbn [result].
      split.
      * destruct (snd _) as [[[| ? | ?] err] | ?] eqn:E; intros [= <-].
        exists temp_dir. split; [reflexivity |]. split; [reflexivity |].
        exists (String c t), err.
        repeat split; [discriminate | exact E].
      * intros (? & [= <-] & -> & token & err & [= <-] & _ & ->). reflexivity.
    + rewrite H. cbn [result]. split; [discriminate |].
      intros (? & _ & _ & token & err & Hn & _). discriminate Hn.
  - rewrite H. cbn [result]. split; [discriminate |].
    intros (? & Hd & _). discriminate Hd.
Qed.

(** X17. With a token, once the temporary directory is made, [git] is
    run once, for a shallow clone of branch [main] from the repository's
    address with the token put in, into the repository's directory; the
    line logged before it shows the address without the token. *)
Theorem clone_repo_git_command (w : world St) (token : string)
        (temp_dir : FS.path) :
  GIT_TOKEN cfg = Some token ->
  token <> EmptyString ->
  snd (mkdtemp host "prompts_" (fs w)) = Return temp_dir ->
  let repo_path := FS.join temp_dir "ai-window-remote-settings-prompts" in
  exists line,
    events (clone_repo host cfg PROMPTS_REPO w) =
      [EPrint ("🔄 Cloning " +:+ PROMPTS_REPO +:+ "...");
       ERun ["git"; "clone"; "--depth"; "1"; "--branch"; "main";
             "https://" +:+ token
             +:+ "@github.com/Firefox-AI/ai-window-remote-settings-prompts.git";
             FS.to_string repo_path];
       EPrint line].
Proof.
  intros Ht Hne Hd repo_path. subst repo_path.
  pose proof (clone_repo_cases PROMPTS_REPO w) as H. cbv zeta in H.
  rewrite Hd, Ht in H. destruct token as [| c t]; [congruence |].
  destruct H as (line & ->). exists line. cbn [events].
  unfold clone_args. now rewrite prompts_repo_with_token.
Qed.

End AcquisitionFacts.

Lemma fetch_current_prompts_cleans_up_witness :
  FS.exists_ (FS.parent Sample.repo_path)
    (fs (final (fetch_current_prompts (Sample.host []) Sample.repo_path
                  (Sample.checkout Sample.prompts_tree)))) = false.
Proof.
  apply (fetch_current_prompts_cleans_up (Sample.host []) Sample.repo_path
           (Sample.checkout Sample.prompts_tree));
    [vm_compute; reflexivity | vm_compute; discriminate].
Defined.

Lemma fetch_current_prompts_collect_raises_witness :
  result (fetch_current_prompts (Sample.host []) Sample.repo_path
            (Sample.checkout Sample.broken_tree))
  = Raise (UnboundLocalError "records").
Proof.
  apply (fetch_current_prompts_collect_raises (Sample.host []) Sample.repo_path
           (Sample.checkout Sample.broken_tree)
           (NotADirectoryError "/tmp/prompts_x/repo/prompts/README.txt"));
    vm_compute; reflexivity.
Defined.

Lemma get_item_opens_listed_file_witness :
  FS.join Sample.version_dir
    (Str.stem (FS.name (FS.join Sample.version_dir "claude.3.5.json")) +:+ ".json")
  = FS.join Sample.version_dir "claude.3.5.json".
Proof.
  apply (get_item_opens_listed_file Sample.version_dir "claude.3.5.json").
  reflexivity.
Defined.

Lemma get_item_record_witness :
  exists data,
    result (get_item (Sample.host []) Sample.version_dir "claude.3.5"
              (Sample.checkout Sample.prompts_tree)) = Return data
    /\ data !! "id" = Some (JStr "chat--claude-3-5--v1").
Proof.
  assert (E : exists data,
             result (get_item (Sample.host []) Sample.version_dir "claude.3.5"
                       (Sample.checkout Sample.prompts_tree)) = Return data)
    by (vm_compute; eexists; reflexivity).
  destruct E as [data E]. exists data. split; [exact E |].
  destruct (get_item_record (Sample.host []) Sample.version_dir "claude.3.5"
              (Sample.checkout Sample.prompts_tree) data E)
    as (text & members & prompt & feature & model & parameters
        & _ & _ & Hl & Hf & Hm & _ & Hid & _).
  injection Hl as <-. injection Hf as <-. injection Hm as <-. exact Hid.
Defined.

Lemma get_item_missing_md_witness :
  get_item (Sample.host []) Sample.version_dir "claude.3.5"
    (Sample.checkout Sample.lonely_tree)
  = Run (Sample.checkout Sample.lonely_tree) []
      (Raise (FileNotFoundError
                (FS.to_string (FS.join Sample.version_dir "claude.3.5.md")))).
Proof.
  apply (get_item_missing_md (Sample.host []) Sample.version_dir "claude.3.5"
           (Sample.checkout Sample.lonely_tree) "{}"
           (JObj [("feature", JStr "chat"); ("model", JStr "claude.3.5");
                  ("parameters", JObj [("temperature", JNum 1)])]));
    vm_compute; reflexivity.
Defined.

Lemma collect_one_record_per_file_witness :
  exists items,
    Forall2 (loaded (Sample.host []) (Sample.checkout Sample.prompts_tree))
      (record_files (fs (Sample.checkout Sample.prompts_tree))
         (FS.join Sample.repo_path "prompts"))
      items.
Proof.
  assert (E : exists items,
             result (collect_prompts_and_params (Sample.host [])
                       (FS.join Sample.repo_path "prompts")
                       (Sample.checkout Sample.prompts_tree)) = Return items)
    by (vm_compute; eexists; reflexivity).
  destruct E as [items E]. exists items.
  exact (collect_one_record_per_file (Sample.host [])
           (FS.join Sample.repo_path "prompts")
           (Sample.checkout Sample.prompts_tree) items E).
Defined.

Lemma collect_needs_file_pairs_witness :
  is_file (fs (Sample.checkout Sample.prompts_tree))
    (FS.join Sample.version_dir
       (Str.stem (FS.name (FS.join Sample.version_dir "claude.3.5.json"))
        +:+ ".md")).
Proof.
  assert (E : exists items,
             result (collect_prompts_and_params (Sample.host [])
                       (FS.join Sample.repo_path "prompts")
                       (Sample.checkout Sample.prompts_tree)) = Return items)
    by (vm_compute; eexists; reflexivity).
  destruct E as [items E].
  refine (proj2 (collect_needs_file_pairs (Sample.host [])
                   (FS.join Sample.repo_path "prompts")
                   (Sample.checkout Sample.prompts_tree) items E
                   Sample.version_dir
                   (FS.join Sample.version_dir "claude.3.5.json") _)).
  vm_compute. left. reflexivity.
Defined.

Lemma clone_repo_without_token_witness :
  result (clone_repo (Sample.host [])
            {| ENVIRONMENT := "prod"; GIT_TOKEN := Some EmptyString;
               SENTRY_DSN := None |}
            PROMPTS_REPO Sample.start)
  = Return None.
Proof.
  apply (clone_repo_without_token (Sample.host [])
           {| ENVIRONMENT := "prod"; GIT_TOKEN := Some EmptyString;
              SENTRY_DSN := None |}
           PROMPTS_REPO Sample.start ["tmp"; "prompts_x"]);
    reflexivity.
Defined.

Lemma clone_repo_git_command_witness :
  exists line,
    events (clone_repo (Sample.host []) (Sample.cfg "prod") PROMPTS_REPO
              Sample.start)
    = [EPrint ("🔄 Cloning " +:+ PROMPTS_REPO +:+ "...");
       ERun ["git"; "clone"; "--depth"; "1"; "--branch"; "main";
             "https://token@github.com/Firefox-AI/ai-window-remote-settings-prompts.git";
             "/tmp/prompts_x/ai-window-remote-settings-prompts"];
       EPrint line].
Proof.
  apply (clone_repo_git_command (Sample.host []) (Sample.cfg "prod")
           Sample.start "token" ["tmp"; "prompts_x"]);
    [reflexivity | discriminate | reflexivity].
Defined.

(** C3, at the input where it fails. The checkout has no [prompts]
    directory: the loader raises [FileNotFoundError] and the temporary
    directory that holds the checkout is still there. *)
Theorem fetch_current_prompts_leaks_temporary_tree :
  let r := fetch_current_prompts (Sample.host []) Sample.repo_path
             (Sample.checkout []) in
  result r = Raise (FileNotFoundError
                      "Prompts directory not found at /tmp/prompts_x/repo/prompts")
  /\ FS.exists_ (FS.parent Sample.repo_path) (fs (final r)) = true
  /\ final r = Sample.checkout [].
Proof. vm_compute. repeat split. Qed.

(** The same checkout with its [prompts] directory is loaded and the
    temporary directory is removed. *)
Example fetch_current_prompts_sample :
  let r := fetch_current_prompts (Sample.host []) Sample.repo_path
             (Sample.checkout Sample.prompts_tree) in
  match result r with
  | Return records => Kinto.ids records = [Some (JStr "chat--claude-3-5--v1")]
  | Raise _ => False
  end
  /\ FS.exists_ (FS.parent Sample.repo_path) (fs (final r)) = false.
Proof. vm_compute. split; reflexivity. Qed.

Section MainFacts.
Context {St : Type} (host : Host) (cfg : settings).
Context (collection_diff : list record -> list record -> diff_result).
Context (client : Client St).

(** C1, as the code has it. When the credentials check passed and
    acquisition returned a checkout without the prompts directory, the
    loader's [FileNotFoundError] is not caught by [main]: it escapes the
    entry point, [main] returns no result code, and the run logs nothing
    after the messages of the acquisition. *)
Theorem main_missing_directory_escapes (w : world St) (repo_path : FS.path) :
  let checked := check_credentials host client w in
  let cloned := clone_repo host cfg PROMPTS_REPO (final checked) in
  let missing :=
    FileNotFoundError ("Prompts directory not found at "
                       +:+ FS.to_string (FS.join repo_path "prompts")) in
  result checked = Return tt ->
  result cloned = Return (Some repo_path) ->
  FS.exists_ (FS.join repo_path "prompts") (fs (final cloned)) = false ->
  result (main host cfg collection_diff client w) = Raise missing
  /\ entry_point host cfg collection_diff client w
     = (final cloned, Uncaught missing)
  /\ events (main host cfg collection_diff client w)
     = events (init_sentry cfg w) ++ events checked
       ++ [EPrint (String "010" "=== Processing prompts ===");
           EPrint "📥 Fetching prompts ..."]
       ++ events cloned.
Proof.
  intros checked cloned missing Hc Hr Hm. subst checked cloned missing.
  unfold entry_point, main, init_sentry.
  unfold mbind, M_bind, try_, print, emit, mret, M_ret.
  destruct (truthy (SENTRY_DSN cfg)); cbn;
    destruct (check_credentials host client w) as [w1 ev1 [[] | e]];
    cbn in *; try discriminate;
    destruct (clone_repo host cfg PROMPTS_REPO w1) as [w2 ev2 [[p |] | e]];
    cbn in *; try discriminate;
    injection Hr as ->;
    rewrite (fetch_current_prompts_missing host repo_path w2 Hm);
    cbn; rewrite ?app_nil_r, <- ?app_assoc; auto.
Qed.

End MainFacts.

Lemma main_missing_directory_escapes_witness :
  result (main (Sample.host []) (Sample.cfg "prod") Kinto.collection_diff
            Kinto.client Sample.start)
  = Raise (FileNotFoundError
             ("Prompts directory not found at " +:+
              FS.to_string
                (FS.join ["tmp"; "prompts_x"; "ai-window-remote-settings-prompts"]
                   "prompts"))).
Proof.
  apply (main_missing_directory_escapes (Sample.host []) (Sample.cfg "prod")
           Kinto.collection_diff Kinto.client Sample.start
           ["tmp"; "prompts_x"; "ai-window-remote-settings-prompts"]);
    vm_compute; reflexivity.
Defined.

(** C1, as stated, fails: on a host where acquisition succeeds and the
    checkout has no prompts directory, the process does not end with a
    result code; [FileNotFoundError] is uncaught. *)
Lemma main_missing_directory_uncaught :
  snd (entry_point (Sample.host []) (Sample.cfg "prod") Kinto.collection_diff
         Kinto.client Sample.start)
  = Uncaught (FileNotFoundError
      "Prompts directory not found at /tmp/prompts_x/ai-window-remote-settings-prompts/prompts")
  /\ forall code,
       snd (entry_point (Sample.host []) (Sample.cfg "prod") Kinto.collection_diff
              Kinto.client Sample.start) <> ExitCode code.
Proof. split; [vm_compute; reflexivity | intros code; vm_compute; discriminate]. Qed.

(** The stages around the loader do turn their failures into a result
    code: a failed acquisition ends the run with 1. *)
Example main_clone_failure :
  result (main (Sample.host [])
            {| ENVIRONMENT := "prod"; GIT_TOKEN := None; SENTRY_DSN := None |}
            Kinto.collection_diff Kinto.client Sample.start)
  = Return 1.
Proof. vm_compute. reflexivity. Qed.

(* ===================================================================== *)
(** * Properties of the engine *)
(* ===================================================================== *)

Section EventFacts.

Lemma count_app (p : event -> bool) (l1 l2 : list event) :
  count p (l1 ++ l2) = (count p l1 + count p l2)%nat.
Proof. unfold count. now rewrite List.filter_app, length_app. Qed.

Lemma count_cons (p : event -> bool) (e : event) (l : list event) :
  count p (e :: l) = ((if p e then 1 else 0) + count p l)%nat.
Proof. unfold count. simpl. now destruct (p e). Qed.

Lemma count_nil (p : event -> bool) : count p [] = 0%nat.
Proof. reflexivity. Qed.

Lemma count_map_none {A} (p : event -> bool) (f : A -> event) (l : list A) :
  (forall x, p (f x) = false) -> count p (List.map f l) = 0%nat.
Proof.
  intros H. unfold count. induction l as [|x l IH]; simpl; [reflexivity |].
  now rewrite H.
Qed.

Lemma existsb_map_none {A} (p : event -> bool) (f : A -> event) (l : list A) :
  (forall x, p (f x) = false) -> existsb p (List.map f l) = false.
Proof.
  intros H. induction l as [|x l IH]; simpl; [reflexivity |].
  now rewrite H.
Qed.

Lemma app_last2 {A} (l : list A) (a b c : A) :
  l ++ [a; b; c] = (l ++ [a]) ++ [b; c].
Proof. now rewrite <- app_assoc. Qed.

Lemma app_last2' {A} (l : list A) (a b c d : A) :
  l ++ [a; b; c; d] = (l ++ [a; b]) ++ [c; d].
Proof. now rewrite <- app_assoc. Qed.

End EventFacts.

(** Name the log lines, so that the event lists stay small. *)
Ltac hide_prints :=
  repeat match goal with
    | |- context [EPrint ?s] =>
        tryif is_var s then fail
        else (let x := fresh "line" in set (x := s) in *; clearbody x)
    end.

(** Push [count] and [existsb] through an event list. *)
Ltac tidy_events :=
  cbn [existsb];
  repeat (progress rewrite ?count_cons, ?count_app, ?count_nil, ?existsb_app;
          cbn [existsb]);
  rewrite ?(count_map_none is_review_request) by (intros; reflexivity);
  rewrite ?(count_map_none is_approval) by (intros; reflexivity);
  rewrite ?existsb_map_none by (intros; reflexivity);
  cbn [existsb orb andb failed_in kinto_failure is_batch_call is_review_request
       is_approval Nat.add].

(** Split a membership in a list built from [++], [::] and [map]. *)
Ltac in_cases H :=
  repeat match type of H with
    | In _ (_ ++ _) => apply in_app_or in H as [H | H]
    | In _ (_ :: _) => destruct H as [H | H]
    | In _ [] => destruct H
    | In _ (List.map _ _) => apply in_map_iff in H as (? & ? & H)
    end.

Section LoopFacts.
Context {St : Type}.

(** A loop whose body queues one request per element. *)
Lemma for_enqueue {A} (l : list A) (ev : A -> event) (op : A -> batch_op)
      (body : A -> M St unit) (w : world St) :
  (forall x w, body x w =
     Run (World (fs w) (remote w) (queue w ++ [op x])) [ev x] (Return tt)) ->
  for_ l body w =
    Run (World (fs w) (remote w) (queue w ++ List.map op l))
        (List.map ev l) (Return tt).
Proof.
  intros Hb. unfold for_. revert w.
  induction l as [|x l IH]; intros w; simpl.
  - rewrite app_nil_r. now destruct w.
  - unfold mbind, M_bind. rewrite Hb, IH. simpl. now rewrite <- app_assoc.
Qed.

(** The delete loop: it queues the identifiers it can read and raises
    [KeyError] at the first record without one. *)
Lemma for_delete (l : list record) (body : record -> M St unit) (w : world St) :
  (forall r w, body r w =
     match r !! "id" with
     | Some i =>
         Run (World (fs w) (remote w) (queue w ++ [OpDelete i]))
             [EDeleteRecord i] (Return tt)
     | None => Run w [] (Raise (KeyError "id"))
     end) ->
  for_ l body w =
    Run (World (fs w) (remote w)
           (queue w ++ List.map OpDelete (fst (delete_ids l))))
        (List.map EDeleteRecord (fst (delete_ids l)))
        (if snd (delete_ids l) then Return tt else Raise (KeyError "id")).
Proof.
  intros Hb. unfold for_. revert w.
  induction l as [|x l IH]; intros w; simpl.
  - rewrite app_nil_r. now destruct w.
  - unfold mbind, M_bind. rewrite Hb. destruct (x !! "id") as [i|]; simpl.
    + rewrite IH. destruct (delete_ids l) as [ids ok]. simpl.
      now rewrite <- app_assoc.
    + rewrite app_nil_r. now destruct w.
Qed.

End LoopFacts.

Section EngineFacts.
Context {St : Type} (cfg : settings).
Context (collection_diff : list record -> list record -> diff_result).
Context (client : Client St).

Ltac split_exn H e := destruct (is_kinto e) eqn:?; cbn in H.

(** Follow a run of [sync_collection], given as the equation [H], through
    every way its calls on the client can end. *)
Ltac sync_walk H :=
  unfold sync_collection, begin_batch, end_batch in H;
  unfold mbind, M_bind, try_, call, print, emit, get_queue, reset_queue,
    mret, M_ret in H;
  let e := fresh "e" in
  destruct (get_records client _) as [?s [?dest|e]] eqn:?Hfetch; cbn in H;
  [ destruct (collection_diff _ _) as [[?tc ?tu] ?td] eqn:?Hdiff;
    destruct (negb _) eqn:?Hsync; cbn in H;
    [ | destruct (batch_enter client _) as [?s [[]|e]] eqn:?Henter; cbn in H;
        [ rewrite (for_enqueue _ ECreateRecord OpCreate) in H by reflexivity;
          cbn in H;
          rewrite (for_enqueue _
                     (fun p => EUpdateRecord (delete "last_modified" (snd p)))
                     (fun p => OpUpdate (delete "last_modified" (snd p)))) in H
            by (intros [? ?] ?; reflexivity);
          cbn in H;
          rewrite for_delete in H
            by (intros ? ?; unfold getitem; destruct (_ !! "id"); reflexivity);
          cbn in H;
          destruct (delete_ids _) as [?ids [|]] eqn:?Hids; cbn in H;
          [ destruct (batch_send client _ _) as [?s [[]|e]] eqn:?Hsend;
            cbn in H;
            [ destruct (batch_results client _) as [?s [?res|e]] eqn:?Hres;
              cbn in H;
              [ destruct (String.eqb (ENVIRONMENT cfg) "dev") eqn:?Henv;
                cbn in H;
                [ destruct (request_review client _ _) as [?s [[]|e]]
                    eqn:?Hreview;
                  cbn in H;
                  [ destruct (approve_changes client _) as [?s [[]|e]]
                      eqn:?Happrove;
                    cbn in H;
                    [ | split_exn H e ]
                  | split_exn H e ]
                | destruct (request_review client _ _) as [?s [[]|e]]
                    eqn:?Hreview;
                  cbn in H;
                  [ | split_exn H e ] ]
              | split_exn H e ]
            | split_exn H e ]
          | ]
        | split_exn H e ] ]
  | split_exn H e ].

(** C7. Whatever the diff and whatever the client answers, no record
    handed to the store's update operation has a [last_modified] field:
    neither the argument of an [update_record] call nor an update request
    of the batch that is sent. *)
Theorem update_payloads_sanitized (source_records : list record) (w : world St) :
  Forall (fun data : record => data !! "last_modified" = None)
    (update_payloads
       (events (sync_collection cfg collection_diff client source_records w))).
Proof.
  remember (sync_collection cfg collection_diff client source_records w)
    as r eqn:Hr.
  apply List.Forall_forall. intros data Hin.
  apply in_flat_map in Hin as (e' & He & Hd).
  sync_walk Hr; subst r; cbn [events] in He; in_cases He; subst;
    cbn in Hd; try contradiction.
  all: try (destruct Hd as [<- | []]; apply lookup_delete_eq).
  all: apply in_flat_map in Hd as (op & Hop & Hd); in_cases Hop; subst;
    cbn in Hd; try contradiction;
    destruct Hd as [<- | []]; apply lookup_delete_eq.
Qed.

(** With an empty diff the run is the fetch between two log lines. *)
Lemma sync_collection_noop (source_records : list record) (w : world St)
      (s : St) (dest_records : list record) :
  get_records client (remote w) = (s, Return dest_records) ->
  collection_diff source_records dest_records = ([], [], []) ->
  sync_collection cfg collection_diff client source_records w =
    Run (World (fs w) s (queue w))
        [EPrint "📥 Fetching current destination records...";
         ECall GetRecords None;
         EPrint "✅ Records are already in sync. Nothing to do."]
        (Return 0).
Proof.
  intros Hg Hd. unfold sync_collection.
  unfold mbind, M_bind, try_, call, print, emit, mret, M_ret.
  rewrite Hg. cbn. rewrite Hd. reflexivity.
Qed.

(** C6. When the records fetched from the store give an empty diff,
    [sync_collection] returns 0 having made no batch call, no review
    request and no approval call, and the store is as the fetch left
    it. *)
Theorem sync_in_sync (source_records : list record) (w : world St)
        (s : St) (dest_records : list record) :
  get_records client (remote w) = (s, Return dest_records) ->
  collection_diff source_records dest_records = ([], [], []) ->
  let r := sync_collection cfg collection_diff client source_records w in
  result r = Return 0
  /\ count is_batch_call (events r) = 0%nat
  /\ count is_review_request (events r) = 0%nat
  /\ count is_approval (events r) = 0%nat
  /\ remote (final r) = s.
Proof.
  intros Hg Hd r. subst r.
  rewrite (sync_collection_noop source_records w s dest_records Hg Hd).
  cbn [result events final remote].
  repeat split; reflexivity.
Qed.

(** C5. A call that fails with the store's exception ends the run with
    result 1 and nothing of the later stages is called: after a failed
    fetch there is no batch call, no review request and no approval;
    after a failed batch there is no review request and no approval;
    after a failed review request or approval the batch stays applied:
    the failed call is followed by its log line only. *)
Theorem failure_short_circuits (source_records : list record) (w : world St)
        (st : stage) :
  let r := sync_collection cfg collection_diff client source_records w in
  stage_failed st (events r) = true ->
  result r = Return 1
  /\ match st with
     | Fetch =>
         count is_batch_call (events r) = 0%nat
         /\ count is_review_request (events r) = 0%nat
         /\ count is_approval (events r) = 0%nat
     | Apply =>
         count is_review_request (events r) = 0%nat
         /\ count is_approval (events r) = 0%nat
     | Review =>
         batch_applied (events r) = true
         /\ exists before req m,
             events r =
               before
               ++ [ECall req (Some (KintoException m));
                   EPrint ("❌ Failed to update collection status: " +:+ m)]
             /\ (is_review_request (ECall req None)
                 || is_approval (ECall req None)) = true
             /\ stage_failed Review before = false
     end.
Proof.
  intros r.
  remember (sync_collection cfg collection_diff client source_records w)
    as r' eqn:Hr.
  subst r. unfold stage_failed, batch_applied.
  sync_walk Hr; subst r'; cbn [events result]; destruct st.
  all: try (hide_prints; tidy_events;
            try match goal with H : is_kinto _ = _ |- _ => rewrite H end;
            first [ discriminate | intros _; repeat split; reflexivity ]).
  all: tidy_events;
    try match goal with H : is_kinto _ = _ |- _ => rewrite H end;
    try discriminate.
  all: intros _; (split; [reflexivity |]); (split; [reflexivity |]).
  all: match goal with H : is_kinto ?e = true |- _ =>
         destruct e; try discriminate H end.
  all: cbn [exn_str].
  all: first [ rewrite app_last2' | rewrite app_last2 ]; rewrite !app_comm_cons.
  all: eexists _, _, _; split; [reflexivity |]; split; [reflexivity |].
  all: tidy_events; reflexivity.
Qed.

(** C4, as the code has it. After a batch that went through, exactly one
    review request is made in every environment. An approval call is
    made exactly once when the environment is ["dev"] and the review
    request returned, and not at all otherwise. *)
Theorem environment_gating (source_records : list record) (w : world St) :
  let evs :=
    events (sync_collection cfg collection_diff client source_records w) in
  batch_applied evs = true ->
  count is_review_request evs = 1%nat
  /\ count is_approval evs =
       (if String.eqb (ENVIRONMENT cfg) "dev" && review_returned evs
        then 1 else 0)%nat.
Proof.
  intros evs.
  remember (sync_collection cfg collection_diff client source_records w)
    as r eqn:Hr.
  subst evs. unfold batch_applied, review_returned.
  sync_walk Hr; subst r; cbn [events]; hide_prints; tidy_events;
    try discriminate.
  all: intros _; rewrite ?Henv; split; reflexivity.
Qed.

(** A run that returns 0 either found nothing to do, or went through
    the batch and the review stage with every call returning. *)
Lemma sync_collection_succeeded (source_records : list record) (w : world St) :
  let r := sync_collection cfg collection_diff client source_records w in
  result r = Return 0 ->
  exists s1 dest tc tu td,
    get_records client (remote w) = (s1, Return dest)
    /\ collection_diff source_records dest = (tc, tu, td)
    /\ ((tc, tu, td) = ([], [], []) /\ remote (final r) = s1
        \/ exists ids s2 s3 s4 res s5,
             delete_ids td = (ids, true)
             /\ batch_enter client s1 = (s2, Return tt)
             /\ batch_send client (batch_of tc tu ids) s2 = (s3, Return tt)
             /\ batch_results client s3 = (s4, Return res)
             /\ request_review client "r?" s4 = (s5, Return tt)
             /\ (remote (final r) = s5
                 \/ approve_changes client s5 = (remote (final r), Return tt))).
Proof.
  intros r.
  remember (sync_collection cfg collection_diff client source_records w)
    as r' eqn:Hr.
  subst r.
  sync_walk Hr; subst r'; cbn [result final remote]; intros Hz;
    try discriminate Hz;
    try (destruct e; discriminate Hz).
  - exists s, dest, tc, tu, td.
    split; [reflexivity |]. split; [exact Hdiff |]. left.
    destruct tc, tu, td; try discriminate Hsync. now split.
  - exists s, dest, tc, tu, td.
    split; [reflexivity |]. split; [exact Hdiff |]. right.
    rewrite <- app_assoc in Hsend. fold (batch_of tc tu ids) in Hsend.
    exists ids, s0, s1, s2, res, s3. repeat split; auto.
  - exists s, dest, tc, tu, td.
    split; [reflexivity |]. split; [exact Hdiff |]. right.
    rewrite <- app_assoc in Hsend. fold (batch_of tc tu ids) in Hsend.
    exists ids, s0, s1, s2, res, s3. repeat split; auto.
Qed.

(** How a run of [sync_collection] can end. *)
Lemma sync_collection_outcome (source_records : list record) (w : world St) :
  match result (sync_collection cfg collection_diff client source_records w) with
  | Return code => code = 0 \/ code = 1
  | Raise e => is_kinto e = false
  end.
Proof.
  remember (sync_collection cfg collection_diff client source_records w)
    as r eqn:Hr.
  sync_walk Hr; subst r; cbn [result]; auto.
Qed.

(** X18. [sync_collection] returns 0 or 1 and nothing else, and no
    exception of the store leaves it: an exception that does leave it is
    of another kind. *)
Theorem sync_collection_result_codes (source_records : list record)
        (w : world St) :
  let r := sync_collection cfg collection_diff client source_records w in
  (forall code, result r = Return code -> code = 0 \/ code = 1)
  /\ (forall e, result r = Raise e -> is_kinto e = false).
Proof.
  intros r. subst r.
  pose proof (sync_collection_outcome source_records w) as H.
  destruct (result _) as [code | e];
    split; intros ? [= <-]; exact H.
Qed.

(** X19. A run that returns 1 has logged a failure line, and a run that
    returns 0 has logged none. *)
Theorem sync_collection_failure_logged (source_records : list record)
        (w : world St) (code : Z) :
  let r := sync_collection cfg collection_diff client source_records w in
  result r = Return code ->
  existsb is_failure_line (events r) = (code =? 1).
Proof.
  intros r.
  remember (sync_collection cfg collection_diff client source_records w)
    as r' eqn:Hr.
  subst r.
  sync_walk Hr; subst r'; cbn [result events]; intros [= <-];
    cbn [existsb]; repeat (progress rewrite ?existsb_app; cbn [existsb]);
    rewrite ?existsb_map_none by (intros; reflexivity);
    reflexivity.
Qed.

(** X20. The engine works on the store only: it leaves the file system
    as it was, runs no command and removes nothing. *)
Theorem sync_collection_leaves_files (source_records : list record)
        (w : world St) :
  let r := sync_collection cfg collection_diff client source_records w in
  fs (final r) = fs w
  /\ existsb (fun e => is_run e || is_rmtree e) (events r) = false.
Proof.
  intros r.
  remember (sync_collection cfg collection_diff client source_records w)
    as r' eqn:Hr.
  subst r.
  sync_walk Hr; subst r'; cbn [final fs events]; (split; [reflexivity |]);
    hide_prints;
    cbn [existsb]; repeat (progress rewrite ?existsb_app; cbn [existsb]);
    rewrite ?existsb_map_none by (intros; reflexivity);
    reflexivity.
Qed.

(** X21. Every run starts by fetching the records of the store, once:
    the first log line is followed by the fetch and no later event is a
    fetch. *)
Theorem sync_collection_fetches_once (source_records : list record)
        (w : world St) :
  exists raised rest,
    events (sync_collection cfg collection_diff client source_records w)
    = EPrint "📥 Fetching current destination records..."
      :: ECall GetRecords raised :: rest
    /\ count is_fetch rest = 0%nat.
Proof.
  remember (sync_collection cfg collection_diff client source_records w)
    as r eqn:Hr.
  sync_walk Hr; subst r; cbn [events]; eexists _, _;
    (split; [reflexivity |]); hide_prints;
    repeat (progress rewrite ?count_cons, ?count_app, ?count_nil);
    rewrite ?(count_map_none is_fetch) by (intros; reflexivity);
    reflexivity.
Qed.

(** X22. What is sent as the batch: the creates, then the updates
    without [last_modified], then the deletes by identifier, of the diff
    of the desired records against the fetched ones, and that only when
    every record to delete has its identifier. One batch is sent, not more. *)
Theorem sync_collection_batch_contents (source_records : list record)
        (w : world St) (ops : list batch_op) (raised : option exn) :
  let r := sync_collection cfg collection_diff client source_records w in
  In (ECall (BatchSend ops) raised) (events r) ->
  (exists dest,
     snd (get_records client (remote w)) = Return dest
     /\ let '(to_create, to_update, to_delete) :=
          collection_diff source_records dest in
        snd (delete_ids to_delete) = true
        /\ ops = batch_of to_create to_update (fst (delete_ids to_delete)))
  /\ count is_send (events r) = 1%nat.
Proof.
  intros r.
  remember (sync_collection cfg collection_diff client source_records w)
    as r' eqn:Hr.
  subst r.
  sync_walk Hr; subst r'; cbn [events]; intros Hin; in_cases Hin;
    try discriminate Hin;
    try match goal with E : _ = ECall _ _ |- _ => discriminate E end.
  all: injection Hin as <- <-.
  all: split;
    [ exists dest; split; [reflexivity |];
      rewrite Hdiff, Hids; split; [reflexivity |];
      cbn [fst]; unfold batch_of; cbn [app]; now rewrite <- app_assoc
    | hide_prints;
      repeat (progress rewrite ?count_cons, ?count_app, ?count_nil);
      rewrite ?(count_map_none is_send) by (intros; reflexivity);
      reflexivity ].
Qed.

(** X23. A record to delete that has no identifier: the delete loop
    raises [KeyError], which is no exception of the store, so it leaves
    [sync_collection]. No failure line is logged, no review is requested
    and nothing is approved. *)
Theorem sync_collection_delete_without_id (source_records : list record)
        (w : world St) (s s' : St) (dest to_create to_delete : list record)
        (to_update : list (record * record)) :
  get_records client (remote w) = (s, Return dest) ->
  collection_diff source_records dest = (to_create, to_update, to_delete) ->
  batch_enter client s = (s', Return tt) ->
  snd (delete_ids to_delete) = false ->
  let r := sync_collection cfg collection_diff client source_records w in
  result r = Raise (KeyError "id")
  /\ existsb is_failure_line (events r) = false
  /\ count is_review_request (events r) = 0%nat
  /\ count is_approval (events r) = 0%nat.
Proof.
  intros Hg Hd Hb Hk r.
  remember (sync_collection cfg collection_diff client source_records w)
    as r' eqn:Hr.
  subst r.
  assert (Hc : negb (nonempty to_create || nonempty to_update
                     || nonempty to_delete) = false).
  { destruct to_delete; [discriminate Hk |].
    now destruct to_create, to_update. }
  unfold sync_collection, begin_batch in Hr.
  unfold mbind, M_bind, try_, call, print, emit, reset_queue, mret, M_ret in Hr.
  rewrite Hg in Hr. cbn in Hr. rewrite Hd, Hc in Hr. cbn in Hr.
  rewrite Hb in Hr. cbn in Hr.
  rewrite (for_enqueue _ ECreateRecord OpCreate) in Hr by reflexivity.
  cbn in Hr.
  rewrite (for_enqueue _
             (fun p => EUpdateRecord (delete "last_modified" (snd p)))
             (fun p => OpUpdate (delete "last_modified" (snd p)))) in Hr
    by (intros [? ?] ?; reflexivity).
  cbn in Hr.
  rewrite for_delete in Hr
    by (intros ? ?; unfold getitem; destruct (_ !! "id"); reflexivity).
  cbn in Hr. destruct (delete_ids to_delete) as [ids ok]. cbn in Hk. subst ok.
  cbn in Hr. subst r'. cbn [result events].
  split; [reflexivity |].
  split; [| hide_prints; split; tidy_events; reflexivity].
  cbn [existsb]. repeat (progress rewrite ?existsb_app; cbn [existsb]).
  rewrite ?existsb_map_none by (intros; reflexivity).
  reflexivity.
Qed.

End EngineFacts.

Lemma sync_in_sync_witness :
  result (sync_collection (Sample.cfg "prod") Kinto.collection_diff Kinto.client
            Sample.desired Sample.synced) = Return 0.
Proof.
  apply (sync_in_sync (Sample.cfg "prod") Kinto.collection_diff Kinto.client
           Sample.desired Sample.synced Sample.synced_store
           (Kinto.records Sample.synced_store));
    vm_compute; reflexivity.
Defined.

Lemma failure_short_circuits_witness :
  let r := sync_collection (Sample.cfg "prod") Kinto.collection_diff
             (Kinto.faulty_client Kinto.ReviewFault Sample.refused)
             Sample.desired Sample.stale in
  stage_failed Review (events r) = true /\ result r = Return 1.
Proof.
  assert (H : stage_failed Review
                (events (sync_collection (Sample.cfg "prod") Kinto.collection_diff
                           (Kinto.faulty_client Kinto.ReviewFault Sample.refused)
                           Sample.desired Sample.stale)) = true)
    by (vm_compute; reflexivity).
  split; [exact H |].
  exact (proj1 (failure_short_circuits (Sample.cfg "prod") Kinto.collection_diff
                  (Kinto.faulty_client Kinto.ReviewFault Sample.refused)
                  Sample.desired Sample.stale Review H)).
Defined.

Lemma environment_gating_witness :
  let evs := events (sync_collection (Sample.cfg "dev") Kinto.collection_diff
                       Kinto.client Sample.desired Sample.stale) in
  batch_applied evs = true
  /\ count is_review_request evs = 1%nat
  /\ count is_approval evs = 1%nat.
Proof.
  assert (H : batch_applied
                (events (sync_collection (Sample.cfg "dev") Kinto.collection_diff
                           Kinto.client Sample.desired Sample.stale)) = true)
    by (vm_compute; reflexivity).
  split; [exact H |].
  destruct (environment_gating (Sample.cfg "dev") Kinto.collection_diff
              Kinto.client Sample.desired Sample.stale H) as [H1 H2].
  split; [exact H1 |]. rewrite H2. vm_compute. reflexivity.
Defined.

(** C4, as stated, fails: on ["dev"], with a batch that went through and
    a review request that the store refuses, no approval call is made. *)
Lemma environment_gating_review_refused :
  let evs := events (sync_collection (Sample.cfg "dev") Kinto.collection_diff
                       (Kinto.faulty_client Kinto.ReviewFault Sample.refused)
                       Sample.desired Sample.stale) in
  Config.valid_environment (ENVIRONMENT (Sample.cfg "dev")) = true
  /\ ENVIRONMENT (Sample.cfg "dev") = "dev"
  /\ batch_applied evs = true
  /\ count is_review_request evs = 1%nat
  /\ count is_approval evs = 0%nat.
Proof. vm_compute. repeat split. Qed.

(** When the review request fails the records of the batch stay in the
    store and the collection stays pending review. *)
Example review_failure_keeps_batch :
  let r := sync_collection (Sample.cfg "prod") Kinto.collection_diff
             (Kinto.faulty_client Kinto.ReviewFault Sample.refused)
             Sample.desired Sample.stale in
  result r = Return 1
  /\ content (Some (JStr "chat--claude-3-5--v1")) (Kinto.records (remote (final r)))
     = Some {["id" := JStr "chat--claude-3-5--v1"; "prompts" := JStr "A"]}
  /\ Kinto.ids (Kinto.records (remote (final r)))
     = [Some (JStr "chat--claude-3-5--v1")]
  /\ Kinto.status (remote (final r)) = Kinto.PendingReview false.
Proof. vm_compute. repeat split. Qed.

(** Only the store's exception is turned into a result code: an exception
    of another kind leaves [sync_collection]. *)
Example sync_collection_other_exception :
  result (sync_collection (Sample.cfg "prod") Kinto.collection_diff
            (Kinto.faulty_client Kinto.FetchFault (OtherException "timed out"))
            Sample.desired Sample.stale)
  = Raise (OtherException "timed out").
Proof. vm_compute. reflexivity. Qed.

(** The example of the specification: one desired record, an empty store,
    an environment other than ["dev"]. The record is created, review is
    requested, approval is not called, and the result is 0. *)
Example sync_collection_example :
  let r := sync_collection (Sample.cfg "stage") Kinto.collection_diff Kinto.client
             Sample.desired Sample.start in
  Kinto.collection_diff Sample.desired [] = (Sample.desired, [], [])
  /\ result r = Return 0
  /\ count is_review_request (events r) = 1%nat
  /\ count is_approval (events r) = 0%nat
  /\ Kinto.ids (Kinto.records (remote (final r)))
     = [Some (JStr "chat--claude-3-5--v1")].
Proof. vm_compute. repeat split. Qed.

(** A desired record that carries a stamp of its own is handed over
    without it, once to [update_record] and once in the batch sent. *)
Example update_payloads_sample :
  update_payloads
    (events (sync_collection (Sample.cfg "stage") Kinto.collection_diff
               Kinto.client Sample.desired_stamped Sample.stale))
  = Sample.desired ++ Sample.desired.
Proof. vm_compute. reflexivity. Qed.

Lemma sync_collection_result_codes_witness :
  result (sync_collection (Sample.cfg "prod") Kinto.collection_diff Kinto.client
            Sample.desired Sample.synced) = Return 0
  /\ (0 = 0 \/ 0 = 1).
Proof.
  assert (H : result (sync_collection (Sample.cfg "prod") Kinto.collection_diff
                        Kinto.client Sample.desired Sample.synced) = Return 0)
    by (vm_compute; reflexivity).
  split; [exact H |].
  exact (proj1 (sync_collection_result_codes (Sample.cfg "prod")
                  Kinto.collection_diff Kinto.client Sample.desired
                  Sample.synced) 0 H).
Defined.

Lemma sync_collection_failure_logged_witness :
  existsb is_failure_line
    (events (sync_collection (Sample.cfg "prod") Kinto.collection_diff
               (Kinto.faulty_client Kinto.ReviewFault Sample.refused)
               Sample.desired Sample.stale))
  = true.
Proof.
  apply (sync_collection_failure_logged (Sample.cfg "prod") Kinto.collection_diff
           (Kinto.faulty_client Kinto.ReviewFault Sample.refused)
           Sample.desired Sample.stale 1).
  vm_compute. reflexivity.
Defined.

Lemma sync_collection_batch_contents_witness :
  count is_send
    (events (sync_collection (Sample.cfg "prod") Kinto.collection_diff
               Kinto.client Sample.desired Sample.start))
  = 1%nat.
Proof.
  refine (proj2 (sync_collection_batch_contents (Sample.cfg "prod")
                   Kinto.collection_diff Kinto.client Sample.desired
                   Sample.start (batch_of Sample.desired [] []) None _)).
  vm_compute. repeat first [left; reflexivity | right].
Defined.

Lemma sync_collection_delete_without_id_witness :
  result (sync_collection (Sample.cfg "prod") Kinto.collection_diff Kinto.client
            [] Sample.anonymous)
  = Raise (KeyError "id").
Proof.
  apply (sync_collection_delete_without_id (Sample.cfg "prod")
           Kinto.collection_diff Kinto.client [] Sample.anonymous
           Sample.anonymous_store Sample.anonymous_store
           (Kinto.records Sample.anonymous_store) []
           (Kinto.records Sample.anonymous_store) []);
    vm_compute; reflexivity.
Defined.

(* ===================================================================== *)
(** * Properties of the entry point *)
(* ===================================================================== *)

Section MainRuns.
Context {St : Type} (host : Host) (cfg : settings).
Context (collection_diff : list record -> list record -> diff_result).
Context (client : Client St).

(** The first statement of [main] logs or starts the error reporting,
    and changes nothing. *)
Lemma init_sentry_run (w : world St) :
  init_sentry cfg w = Run w (events (init_sentry cfg w)) (Return tt).
Proof. unfold init_sentry. now destruct (truthy (SENTRY_DSN cfg)). Qed.

Lemma init_sentry_events (p : event -> bool) (w : world St) :
  (forall line, p (EPrint line) = false) -> p ESentryInit = false ->
  existsb p (events (init_sentry cfg w)) = false.
Proof.
  intros Hp Hs. unfold init_sentry.
  destruct (truthy (SENTRY_DSN cfg)); cbn; now rewrite ?Hp, ?Hs.
Qed.

(** The credentials check asks the server for its information and logs;
    it does nothing else. *)
Lemma check_credentials_events (p : event -> bool) (w : world St) :
  (forall line, p (EPrint line) = false) ->
  (forall raised, p (ECall ServerInfo raised) = false) ->
  existsb p (events (check_credentials host client w)) = false.
Proof.
  intros Hp Hc. unfold check_credentials, user_id, getitem.
  unfold mbind, M_bind, call, print, emit, raise, mret, M_ret.
  destruct (server_info client (remote w)) as [s [info | e]]; cbn;
    [destruct (info !! "user") as [[| ? | ? | ? | ? | members] |]; cbn;
     [.. | destruct (dict_of_members members !! "id"); cbn |] |];
    rewrite ?Hp, ?Hc; cbn; reflexivity.
Qed.

Lemma check_credentials_files (w : world St) :
  fs (final (check_credentials host client w)) = fs w.
Proof.
  unfold check_credentials, user_id, getitem.
  unfold mbind, M_bind, call, print, emit, raise, mret, M_ret.
  destruct (server_info client (remote w)) as [s [info | e]]; cbn;
    [destruct (info !! "user") as [[| ? | ? | ? | ? | members] |]; cbn;
     [.. | destruct (dict_of_members members !! "id"); cbn |] |];
    reflexivity.
Qed.

Lemma clone_repo_events (p : event -> bool) (git_url : string) (w : world St) :
  (forall line, p (EPrint line) = false) ->
  (forall args, p (ERun args) = false) ->
  existsb p (events (clone_repo host cfg git_url w)) = false.
Proof.
  intros Hp Hr. pose proof (clone_repo_cases host cfg git_url w) as H.
  cbv zeta in H.
  destruct (snd (mkdtemp host "prompts_" (fs w))) as [temp_dir | e];
    [| now rewrite H].
  destruct (GIT_TOKEN cfg) as [[| c t] |];
    [| destruct H as (line & H) |]; rewrite H; cbn; now rewrite ?Hp, ?Hr.
Qed.

(** A run of [main] whose credentials check raised. *)
Lemma main_check_raised (w : world St) (e : exn) :
  result (check_credentials host client w) = Raise e ->
  main host cfg collection_diff client w =
    Run (final (check_credentials host client w))
        (events (init_sentry cfg w) ++ events (check_credentials host client w)
         ++ [EPrint ("❌ Failed to connect to Remote Settings server: "
                     +:+ exn_str e)])
        (Return 1).
Proof.
  intros H. unfold main.
  unfold mbind at 1. unfold M_bind at 1. rewrite init_sentry_run.
  unfold mbind at 1. unfold M_bind at 1. unfold try_.
  destruct (check_credentials host client w) as [w1 ev1 [[] | e']];
    cbn in H; [discriminate |]. injection H as ->.
  unfold mbind, M_bind, print, emit, mret, M_ret. cbn.
  now rewrite ?app_nil_r.
Qed.

(** A run of [main] whose credentials check returned. *)
Lemma main_checked (w : world St) :
  let checked := check_credentials host client w in
  let cloned := clone_repo host cfg PROMPTS_REPO (final checked) in
  let head := events (init_sentry cfg w) ++ events checked
              ++ [EPrint (String "010" "=== Processing prompts ===");
                  EPrint "📥 Fetching prompts ..."]
              ++ events cloned in
  result checked = Return tt ->
  main host cfg collection_diff client w =
    match result cloned with
    | Return (Some repo_path) =>
        let fetched := fetch_current_prompts host repo_path (final cloned) in
        match result fetched with
        | Return prompts =>
            let synced := sync_collection cfg collection_diff client prompts
                            (final fetched) in
            Run (final synced) (head ++ events fetched ++ events synced)
                (result synced)
        | Raise e => Run (final fetched) (head ++ events fetched) (Raise e)
        end
    | Return None => Run (final cloned) head (Return 1)
    | Raise e => Run (final cloned) head (Raise e)
    end.
Proof.
  intros checked cloned head H. subst checked cloned head. unfold main.
  unfold mbind at 1. unfold M_bind at 1. rewrite init_sentry_run.
  unfold mbind at 1. unfold M_bind at 1. unfold try_.
  destruct (check_credentials host client w) as [w1 ev1 [[] | e']];
    cbn in H; [| discriminate]. clear H.
  unfold mbind, M_bind, print, emit, mret, M_ret. cbn.
  destruct (clone_repo host cfg PROMPTS_REPO w1) as [w2 ev2 [[p |] | e]]; cbn;
    rewrite ?app_nil_r, <- ?app_assoc; try reflexivity.
  destruct (fetch_current_prompts host p w2) as [w3 ev3 [prompts | e]]; cbn;
    rewrite ?app_nil_r, <- ?app_assoc; try reflexivity.
  pose proof (sync_collection_outcome cfg collection_diff client prompts w3) as Ho.
  destruct (sync_collection cfg collection_diff client prompts w3)
    as [w4 ev4 [code | e]]; cbn in *;
    rewrite ?app_nil_r, <- ?app_assoc; try reflexivity.
  destruct Ho as [-> | ->]; cbn; now rewrite ?app_nil_r, <- ?app_assoc.
Qed.

(** X24. When [main] returns, it returns 0 or 1. *)
Theorem main_result_codes (w : world St) (code : Z) :
  result (main host cfg collection_diff client w) = Return code ->
  code = 0 \/ code = 1.
Proof.
  destruct (result (check_credentials host client w)) as [[] | e] eqn:Hc.
  - rewrite (main_checked w Hc).
    destruct (result (clone_repo _ _ _ _)) as [[p |] | e]; cbn [result].
    + destruct (result (fetch_current_prompts _ _ _)) as [prompts | e];
        cbn [result]; [| discriminate].
      pose proof (sync_collection_outcome cfg collection_diff client prompts
                    (final (fetch_current_prompts host p
                       (final (clone_repo host cfg PROMPTS_REPO
                          (final (check_credentials host client w)))))))
        as Ho.
      destruct (result (sync_collection _ _ _ _ _)); [| discriminate].
      now intros [= <-].
    + intros [= <-]. now right.
    + discriminate.
  - rewrite (main_check_raised w e Hc). cbn [result]. intros [= <-]. now right.
Qed.

(** X25. When the credentials check raises, whatever the exception,
    [main] returns 1 after logging the failure: nothing is acquired, the
    file system is untouched, and the store is asked for nothing but its
    server information. *)
Theorem main_connection_failure (w : world St) (e : exn) :
  result (check_credentials host client w) = Raise e ->
  let r := main host cfg collection_diff client w in
  result r = Return 1
  /\ fs (final r) = fs w
  /\ existsb (fun e => is_run e || is_rmtree e || is_store_call e) (events r)
     = false
  /\ existsb is_failure_line (events r) = true.
Proof.
  intros H r. subst r. rewrite (main_check_raised w e H).
  cbn [result final events].
  split; [reflexivity |].
  split; [apply check_credentials_files |].
  rewrite !existsb_app. split.
  - rewrite init_sentry_events by reflexivity.
    now rewrite check_credentials_events by reflexivity.
  - apply orb_true_iff. right. apply orb_true_iff. right. reflexivity.
Qed.

(** X26. When acquisition returns no path, [main] returns 1 at once: the
    loader and the engine are not entered, so nothing is fetched from
    the store, and the temporary directory is not removed. *)
Theorem main_acquisition_failure (w : world St) :
  let checked := check_credentials host client w in
  let cloned := clone_repo host cfg PROMPTS_REPO (final checked) in
  result checked = Return tt ->
  result cloned = Return None ->
  let r := main host cfg collection_diff client w in
  result r = Return 1
  /\ final r = final cloned
  /\ existsb (fun e => is_rmtree e || is_store_call e) (events r) = false.
Proof.
  intros checked cloned Hc Hn r. subst checked cloned r.
  rewrite (main_checked w Hc), Hn. cbn [result final events].
  repeat split.
  rewrite !existsb_app.
  rewrite init_sentry_events by reflexivity.
  rewrite check_credentials_events by reflexivity.
  rewrite clone_repo_events by reflexivity.
  reflexivity.
Qed.

(** X27. Once the records are loaded, the result of [main] is the result
    of [sync_collection] on them, whether that is a result code or an
    exception, and the run ends where the engine ends. *)
Theorem main_returns_sync_result (w : world St) (repo_path : FS.path)
        (prompts : list record) :
  let checked := check_credentials host client w in
  let cloned := clone_repo host cfg PROMPTS_REPO (final checked) in
  let fetched := fetch_current_prompts host repo_path (final cloned) in
  let synced :=
    sync_collection cfg collection_diff client prompts (final fetched) in
  result checked = Return tt ->
  result cloned = Return (Some repo_path) ->
  result fetched = Return prompts ->
  let r := main host cfg collection_diff client w in
  result r = result synced /\ final r = final synced.
Proof.
  intros checked cloned fetched synced Hc Hp Hf r.
  subst checked cloned fetched synced r.
  rewrite (main_checked w Hc), Hp. cbv zeta. rewrite Hf.
  split; reflexivity.
Qed.

(** X28. An exception of the loader is not caught: it leaves [main], and
    the engine is not entered, so the store is asked for nothing but its
    server information. *)
Theorem main_loader_failure_escapes (w : world St) (repo_path : FS.path)
        (e : exn) :
  let checked := check_credentials host client w in
  let cloned := clone_repo host cfg PROMPTS_REPO (final checked) in
  let fetched := fetch_current_prompts host repo_path (final cloned) in
  result checked = Return tt ->
  result cloned = Return (Some repo_path) ->
  result fetched = Raise e ->
  let r := main host cfg collection_diff client w in
  result r = Raise e
  /\ final r = final fetched
  /\ existsb is_store_call (events r) = false.
Proof.
  intros checked cloned fetched Hc Hp Hf r.
  subst checked cloned fetched r.
  rewrite (main_checked w Hc), Hp. cbv zeta. rewrite Hf.
  cbn [result final events].
  repeat split.
  rewrite !existsb_app.
  rewrite init_sentry_events by reflexivity.
  rewrite check_credentials_events by reflexivity.
  rewrite clone_repo_events by reflexivity.
  now rewrite fetch_current_prompts_events by reflexivity.
Qed.

(** X29. Server information that names a user without an identifier:
    the connection worked, yet the credentials check raises and [main]
    returns 1 without acquiring anything. *)
Theorem main_user_without_id (w : world St) (s : St) (info : record)
        (user : json) :
  server_info client (remote w) = (s, Return info) ->
  info !! "user" = Some user ->
  (forall members, user = JObj members ->
     dict_of_members members !! "id" = None) ->
  let r := main host cfg collection_diff client w in
  result r = Return 1
  /\ existsb is_run (events r) = false
  /\ existsb is_failure_line (events r) = true.
Proof.
  intros Hs Hu Hid r. subst r.
  assert (exists e, result (check_credentials host client w) = Raise e) as [e He].
  { unfold check_credentials, user_id, getitem.
    unfold mbind, M_bind, call, print, emit, raise, mret, M_ret.
    rewrite Hs. cbn. rewrite Hu.
    destruct user as [| ? | ? | ? | ? | members]; cbn; eauto.
    rewrite (Hid members eq_refl). cbn. eauto. }
  rewrite (main_check_raised w e He). cbn [result events].
  split; [reflexivity |].
  rewrite !existsb_app. split.
  - rewrite init_sentry_events by reflexivity.
    now rewrite check_credentials_events by reflexivity.
  - apply orb_true_iff. right. apply orb_true_iff. right. reflexivity.
Qed.


End MainRuns.

Lemma main_result_codes_witness :
  result (main (Sample.host Sample.prompts_tree) (Sample.cfg "prod")
            Kinto.collection_diff Kinto.client Sample.start) = Return 0
  /\ (0 = 0 \/ 0 = 1).
Proof.
  assert (H : result (main (Sample.host Sample.prompts_tree) (Sample.cfg "prod")
                        Kinto.collection_diff Kinto.client Sample.start)
              = Return 0)
    by (vm_compute; reflexivity).
  split; [exact H |].
  exact (main_result_codes (Sample.host Sample.prompts_tree) (Sample.cfg "prod")
           Kinto.collection_diff Kinto.client Sample.start 0 H).
Defined.

Lemma main_connection_failure_witness :
  result (main (Sample.host []) (Sample.cfg "prod") Kinto.collection_diff
            Sample.offline_client Sample.start)
  = Return 1.
Proof.
  apply (main_connection_failure (Sample.host []) (Sample.cfg "prod")
           Kinto.collection_diff Sample.offline_client Sample.start
           (OtherException "connection refused")).
  vm_compute. reflexivity.
Defined.

Lemma main_acquisition_failure_witness :
  result (main Sample.host_git_fails (Sample.cfg "prod") Kinto.collection_diff
            Kinto.client Sample.start)
  = Return 1.
Proof.
  apply (main_acquisition_failure Sample.host_git_fails (Sample.cfg "prod")
           Kinto.collection_diff Kinto.client Sample.start);
    vm_compute; reflexivity.
Defined.

Lemma main_returns_sync_result_witness :
  exists prompts w,
    result (main (Sample.host Sample.prompts_tree) (Sample.cfg "prod")
              Kinto.collection_diff Kinto.client Sample.start)
    = result (sync_collection (Sample.cfg "prod") Kinto.collection_diff
                Kinto.client prompts w).
Proof.
  assert (E : exists prompts,
             result (fetch_current_prompts (Sample.host Sample.prompts_tree)
                       ["tmp"; "prompts_x"; "ai-window-remote-settings-prompts"]
                       (final (clone_repo (Sample.host Sample.prompts_tree)
                                 (Sample.cfg "prod") PROMPTS_REPO
                                 (final (check_credentials
                                           (Sample.host Sample.prompts_tree)
                                           Kinto.client Sample.start)))))
             = Return prompts)
    by (vm_compute; eexists; reflexivity).
  destruct E as [prompts E]. exists prompts. eexists.
  refine (proj1 (main_returns_sync_result (Sample.host Sample.prompts_tree)
                   (Sample.cfg "prod") Kinto.collection_diff Kinto.client
                   Sample.start
                   ["tmp"; "prompts_x"; "ai-window-remote-settings-prompts"]
                   prompts _ _ E));
    vm_compute; reflexivity.
Defined.

Lemma main_loader_failure_escapes_witness :
  result (main (Sample.host Sample.broken_tree) (Sample.cfg "prod")
            Kinto.collection_diff Kinto.client Sample.start)
  = Raise (UnboundLocalError "records").
Proof.
  apply (main_loader_failure_escapes (Sample.host Sample.broken_tree)
           (Sample.cfg "prod") Kinto.collection_diff Kinto.client Sample.start
           ["tmp"; "prompts_x"; "ai-window-remote-settings-prompts"]
           (UnboundLocalError "records"));
    vm_compute; reflexivity.
Defined.


Lemma main_user_without_id_witness :
  result (main (Sample.host []) (Sample.cfg "prod") Kinto.collection_diff
            Kinto.client Sample.nameless)
  = Return 1.
Proof.
  apply (main_user_without_id (Sample.host []) (Sample.cfg "prod")
           Kinto.collection_diff Kinto.client Sample.nameless
           (remote Sample.nameless) (Kinto.info (remote Sample.nameless))
           (JObj [("bucket", JStr "main-workspace")]));
    [reflexivity | vm_compute; reflexivity |].
  intros members [= <-]. vm_compute. reflexivity.
Defined.

(* ===================================================================== *)
(** * Properties of the diff and of the store *)
(* ===================================================================== *)

Section StoreFacts.
Import Kinto.

Lemma rid_stamp t r : rid (stamp t r) = rid r.
Proof. unfold rid, stamp. now rewrite lookup_insert_ne. Qed.

Lemma rid_strip r : rid (strip r) = rid r.
Proof. unfold rid, strip. now rewrite lookup_delete_ne. Qed.

Lemma strip_stamp t r : strip (stamp t r) = strip r.
Proof. unfold strip, stamp. apply delete_insert_eq. Qed.

Lemma strip_strip r : strip (strip r) = strip r.
Proof. unfold strip. apply delete_delete_eq. Qed.

Lemma records_equal_strip a b : records_equal a b = true <-> strip a = strip b.
Proof. unfold records_equal, strip. apply bool_decide_eq_true. Qed.

Lemma find_by_id_Some k l r :
  find_by_id k l = Some r -> In r l /\ rid r = k.
Proof.
  unfold find_by_id. intros H. apply List.find_some in H as [H1 H2].
  split; [exact H1 | now apply bool_decide_eq_true in H2].
Qed.

Lemma find_by_id_None k l :
  find_by_id k l = None <-> forall r, In r l -> rid r <> k.
Proof.
  unfold find_by_id. split.
  - intros H r Hr E. apply (List.find_none _ _ H) in Hr.
    apply bool_decide_eq_false in Hr. contradiction.
  - intros H. induction l as [|x l IH]; simpl; [reflexivity |].
    rewrite bool_decide_eq_false_2 by (apply H; now left).
    apply IH. intros r Hr. apply H. now right.
Qed.

Lemma find_by_id_In l r : In r l -> is_Some (find_by_id (rid r) l).
Proof.
  intros Hr. destruct (find_by_id (rid r) l) eqn:E; [eauto |].
  exfalso. exact (proj1 (find_by_id_None _ _) E r Hr eq_refl).
Qed.

Lemma rid_unique l r r' :
  NoDup (ids l) -> In r l -> In r' l -> rid r = rid r' -> r = r'.
Proof.
  unfold ids. induction l as [|x l IH]; simpl; [contradiction |].
  rewrite NoDup_cons. intros [Hx Hl] [-> | Hr] [-> | Hr'] E.
  - reflexivity.
  - exfalso. apply Hx. rewrite E. apply list_elem_of_fmap.
    exists r'. split; [reflexivity | now apply list_elem_of_In].
  - exfalso. apply Hx. rewrite <- E. apply list_elem_of_fmap.
    exists r. split; [reflexivity | now apply list_elem_of_In].
  - now apply IH.
Qed.

Lemma find_by_id_unique l r :
  NoDup (ids l) -> In r l -> find_by_id (rid r) l = Some r.
Proof.
  intros Hl Hr. destruct (find_by_id_In l r Hr) as [r' E]. rewrite E.
  apply find_by_id_Some in E as [Hr' E]. f_equal.
  exact (rid_unique l r' r Hl Hr' Hr E).
Qed.

Lemma find_put k r l :
  find_by_id k (put r l) = if decide (rid r = k) then Some r else find_by_id k l.
Proof.
  unfold find_by_id, put. induction l as [|x l IH]; simpl.
  - destruct (decide (rid r = k)) as [E | E].
    + now rewrite bool_decide_eq_true_2.
    + now rewrite bool_decide_eq_false_2.
  - destruct (decide (rid x = rid r)) as [Ex | Ex].
    + rewrite (bool_decide_eq_true_2 _ Ex). simpl. rewrite IH.
      destruct (decide (rid r = k)) as [E | E]; [reflexivity |].
      rewrite bool_decide_eq_false_2; [reflexivity | congruence].
    + rewrite (bool_decide_eq_false_2 _ Ex). simpl.
      destruct (decide (rid x = k)) as [E | E].
      * rewrite (bool_decide_eq_true_2 _ E).
        destruct (decide (rid r = k)); [congruence | reflexivity].
      * rewrite (bool_decide_eq_false_2 _ E). exact IH.
Qed.

Lemma find_del k i l :
  find_by_id k (del i l) = if decide (Some i = k) then None else find_by_id k l.
Proof.
  unfold find_by_id, del. induction l as [|x l IH]; simpl.
  - now destruct (decide (Some i = k)).
  - destruct (decide (rid x = Some i)) as [Ex | Ex].
    + rewrite (bool_decide_eq_true_2 _ Ex). simpl. rewrite IH.
      destruct (decide (Some i = k)) as [E | E]; [reflexivity |].
      rewrite bool_decide_eq_false_2; [reflexivity | congruence].
    + rewrite (bool_decide_eq_false_2 _ Ex). simpl.
      destruct (decide (rid x = k)) as [E | E].
      * rewrite (bool_decide_eq_true_2 _ E).
        destruct (decide (Some i = k)); [congruence | reflexivity].
      * rewrite (bool_decide_eq_false_2 _ E). exact IH.
Qed.

Lemma content_apply_op k s op :
  content k (fst (apply_op s op)) =
    match touch k op with Some v => v | None => content k (fst s) end.
Proof.
  destruct s as [l t]. unfold content. destruct op as [r | r | i]; simpl.
  - rewrite find_put, rid_stamp.
    destruct (decide (rid r = k)); simpl; [now rewrite strip_stamp | reflexivity].
  - rewrite find_put, rid_stamp.
    destruct (decide (rid r = k)); simpl; [now rewrite strip_stamp | reflexivity].
  - rewrite find_del. now destruct (decide (Some i = k)).
Qed.

Lemma content_apply_ops k ops s :
  content k (fst (apply_ops ops s)) =
    match effect k ops with Some v => v | None => content k (fst s) end.
Proof.
  unfold apply_ops. revert s. induction ops as [|op ops IH]; intros s; simpl.
  - reflexivity.
  - rewrite IH. destruct (effect k ops); [reflexivity |].
    apply content_apply_op.
Qed.

Lemma effect_app k a b :
  effect k (a ++ b) =
    match effect k b with Some v => Some v | None => effect k a end.
Proof.
  induction a as [|op a IH]; simpl.
  - now destruct (effect k b).
  - rewrite IH. now destruct (effect k b).
Qed.

Lemma effect_None k ops :
  (forall op, In op ops -> touch k op = None) -> effect k ops = None.
Proof.
  induction ops as [|op ops IH]; simpl; intros H; [reflexivity |].
  rewrite IH by (intros; apply H; now right). apply H. now left.
Qed.

Lemma effect_Some k ops v :
  effect k ops = Some v -> exists op, In op ops /\ touch k op = Some v.
Proof.
  induction ops as [|op ops IH]; simpl; [discriminate |].
  destruct (effect k ops) as [v' |] eqn:E.
  - intros [= ->]. destruct (IH eq_refl) as (op' & H1 & H2). eauto.
  - intros H. eauto.
Qed.

Lemma effect_touched k ops op v :
  In op ops -> touch k op = Some v -> is_Some (effect k ops).
Proof.
  induction ops as [|op' ops IH]; simpl; [contradiction |].
  intros [-> | H] Hv.
  - destruct (effect k ops); [eauto | rewrite Hv; eauto].
  - destruct (IH H Hv) as [v' ->]. eauto.
Qed.

Lemma delete_ids_complete td ids :
  delete_ids td = (ids, true) ->
  (forall d, In d td -> exists i, rid d = Some i /\ In i ids)
  /\ (forall i, In i ids -> exists d, In d td /\ rid d = Some i).
Proof.
  unfold rid. revert ids. induction td as [|x td IH]; simpl; intros ids.
  - intros [= <-]. split; intros ? [].
  - destruct (x !! "id") as [i|] eqn:Ei; [| discriminate].
    destruct (delete_ids td) as [ids' ok]. intros [= <- ->].
    destruct (IH ids' eq_refl) as [H1 H2]. split.
    + intros d [<- | Hd]; [exists i; split; [exact Ei | now left] |].
      destruct (H1 d Hd) as (j & Hj & Hin). exists j. split; [exact Hj | now right].
    + intros j [<- | Hj]; [exists x; split; [now left | exact Ei] |].
      destruct (H2 j Hj) as (d & Hd & Hdj). exists d. split; [now right | exact Hdj].
Qed.


Lemma diff_create_In desired L tc tu td r :
  collection_diff desired L = (tc, tu, td) ->
  In r tc <-> In r desired /\ find_by_id (rid r) L = None.
Proof.
  unfold collection_diff. intros [= <- _ _]. rewrite filter_In.
  unfold has_id. destruct (find_by_id (rid r) L); simpl; intuition congruence.
Qed.

Lemma diff_update_In desired L tc tu td d r :
  collection_diff desired L = (tc, tu, td) ->
  In (d, r) tu <->
  In r desired /\ find_by_id (rid r) L = Some d /\ records_equal d r = false.
Proof.
  unfold collection_diff. intros [= _ <- _].
  rewrite <- list_elem_of_In, list_elem_of_omap. split.
  - intros (x & Hx & E). apply list_elem_of_In in Hx.
    destruct (find_by_id (rid x) L) as [d' |] eqn:Ef; [| discriminate].
    destruct (records_equal d' x) eqn:Ee; [discriminate |].
    injection E as <- <-. auto.
  - intros (Hr & Ef & Ee). exists r. rewrite list_elem_of_In, Ef, Ee. auto.
Qed.

Lemma diff_delete_In desired L tc tu td d :
  collection_diff desired L = (tc, tu, td) ->
  In d td <-> In d L /\ find_by_id (rid d) desired = None.
Proof.
  unfold collection_diff. intros [= _ _ <-]. rewrite filter_In.
  unfold has_id. destruct (find_by_id (rid d) desired); simpl; intuition congruence.
Qed.

Lemma batch_reaches_desired desired L t tc tu td ids k :
  NoDup (Kinto.ids desired) ->
  collection_diff desired L = (tc, tu, td) ->
  delete_ids td = (ids, true) ->
  content k (fst (apply_ops (batch_of tc tu ids) (L, t)))
  = strip <$> find_by_id k desired.
Proof.
  intros Hnd Hdiff Hids.
  destruct (delete_ids_complete _ _ Hids) as [Hd1 Hd2].
  rewrite content_apply_ops. unfold batch_of. rewrite !effect_app. simpl fst.
  assert (Hcreate : forall v, effect k (List.map OpCreate tc) = Some v ->
            exists r, In r desired /\ rid r = k /\ find_by_id k L = None
                      /\ v = Some (strip r)).
  { intros v Hv. apply effect_Some in Hv as (op & Hop & Hv).
    apply in_map_iff in Hop as (r & <- & Hr). simpl in Hv.
    destruct (decide (rid r = k)) as [E |]; [| discriminate].
    injection Hv as <-.
    apply (diff_create_In _ _ _ _ _ _ Hdiff) in Hr as [Hr Hf].
    exists r. rewrite <- E. auto. }
  assert (Hupdate : forall v,
            effect k (List.map (fun p => OpUpdate (delete "last_modified" (snd p))) tu)
            = Some v ->
            exists d r, In r desired /\ rid r = k /\ find_by_id k L = Some d
                        /\ records_equal d r = false /\ v = Some (strip r)).
  { intros v Hv. apply effect_Some in Hv as (op & Hop & Hv).
    apply in_map_iff in Hop as ([d r] & <- & Hr). simpl in Hv.
    fold (strip r) in Hv. rewrite rid_strip, strip_strip in Hv.
    destruct (decide (rid r = k)) as [E |]; [| discriminate].
    injection Hv as <-.
    apply (diff_update_In _ _ _ _ _ _ _ Hdiff) in Hr as (Hr & Hf & He).
    exists d, r. rewrite <- E. auto. }
  assert (Hdelete : forall v, effect k (List.map OpDelete ids) = Some v ->
            v = None /\ find_by_id k desired = None).
  { intros v Hv. apply effect_Some in Hv as (op & Hop & Hv).
    apply in_map_iff in Hop as (i & <- & Hi). simpl in Hv.
    destruct (decide (Some i = k)) as [E |]; [| discriminate].
    injection Hv as <-. split; [reflexivity |].
    destruct (Hd2 i Hi) as (d & Hd & Hdi).
    apply (diff_delete_In _ _ _ _ _ _ Hdiff) in Hd as [_ Hf].
    now rewrite Hdi, E in Hf. }
  destruct (effect k (List.map OpDelete ids)) as [v |] eqn:Ed.
  { destruct (Hdelete v eq_refl) as [-> ->]. reflexivity. }
  destruct (effect k (List.map _ tu)) as [v |] eqn:Eu.
  { destruct (Hupdate v eq_refl) as (d & r & Hr & Hk & _ & _ & ->).
    subst k. now rewrite (find_by_id_unique _ _ Hnd Hr). }
  destruct (effect k (List.map OpCreate tc)) as [v |] eqn:Ec.
  { destruct (Hcreate v eq_refl) as (r & Hr & Hk & _ & ->).
    subst k. now rewrite (find_by_id_unique _ _ Hnd Hr). }
  (* no request touches [k] *)
  unfold content.
  destruct (find_by_id k desired) as [r |] eqn:Er.
  - apply find_by_id_Some in Er as [Hr Hk].
    destruct (find_by_id k L) as [d |] eqn:El.
    + destruct (records_equal d r) eqn:Ee.
      * simpl. f_equal. now apply records_equal_strip.
      * exfalso.
        assert (Hin : In (d, r) tu).
        { apply (diff_update_In _ _ _ _ _ _ _ Hdiff). rewrite Hk. auto. }
        assert (is_Some (effect k (List.map
                  (fun p => OpUpdate (delete "last_modified" (snd p))) tu))) as [v Hv].
        { eapply effect_touched.
          - apply in_map_iff. exists (d, r). split; [reflexivity | exact Hin].
          - simpl. fold (strip r). rewrite rid_strip.
            destruct (decide (rid r = k)); [reflexivity | contradiction]. }
        congruence.
    + exfalso.
      assert (Hin : In r tc).
      { apply (diff_create_In _ _ _ _ _ _ Hdiff). rewrite Hk. auto. }
      assert (is_Some (effect k (List.map OpCreate tc))) as [v Hv].
      { eapply effect_touched.
        - apply in_map_iff. exists r. split; [reflexivity | exact Hin].
        - simpl. destruct (decide (rid r = k)); [reflexivity | contradiction]. }
      congruence.
  - destruct (find_by_id k L) as [d |] eqn:El; [| reflexivity].
    exfalso. apply find_by_id_Some in El as [Hd Hk].
    assert (Hin : In d td).
    { apply (diff_delete_In _ _ _ _ _ _ Hdiff). rewrite Hk. auto. }
    destruct (Hd1 d Hin) as (i & Hi & Hin').
    assert (is_Some (effect k (List.map OpDelete ids))) as [v Hv].
    { eapply effect_touched.
      - apply in_map_iff. exists i. split; [reflexivity | exact Hin'].
      - simpl. destruct (decide (Some i = k)); [reflexivity | congruence]. }
    congruence.
Qed.

Lemma filter_nil {A} (p : A -> bool) l :
  (forall x, In x l -> p x = false) -> List.filter p l = [].
Proof.
  induction l as [|x l IH]; simpl; intros H; [reflexivity |].
  rewrite H by now left. apply IH. intros; apply H; now right.
Qed.

Lemma omap_nil {A B} (f : A -> option B) l :
  (forall x, In x l -> f x = None) -> omap f l = [].
Proof.
  induction l as [|x l IH]; simpl; intros H; [reflexivity |].
  rewrite H by now left. apply IH. intros; apply H; now right.
Qed.


Lemma ids_find k l : In k (Kinto.ids l) <-> is_Some (find_by_id k l).
Proof.
  unfold Kinto.ids. rewrite <- list_elem_of_In, list_elem_of_fmap. split.
  - intros (r & -> & Hr). apply find_by_id_In. now apply list_elem_of_In.
  - intros [r Hr]. apply find_by_id_Some in Hr as [Hr <-].
    exists r. split; [reflexivity | now apply list_elem_of_In].
Qed.

Lemma same_content_rid a b : strip a = strip b -> rid a = rid b.
Proof. intros E. now rewrite <- (rid_strip a), E, rid_strip. Qed.

Lemma same_content_ids desired desired' :
  Forall2 (fun a b => strip a = strip b) desired desired' ->
  Kinto.ids desired' = Kinto.ids desired.
Proof.
  unfold Kinto.ids. induction 1 as [|a b l l' E _ IH]; [reflexivity |].
  now rewrite !fmap_cons, IH, (same_content_rid a b E).
Qed.

Lemma same_content_find desired desired' k :
  Forall2 (fun a b => strip a = strip b) desired desired' ->
  strip <$> find_by_id k desired' = strip <$> find_by_id k desired.
Proof.
  unfold find_by_id. induction 1 as [|a b l l' E _ IH]; simpl; [reflexivity |].
  rewrite (same_content_rid a b E).
  destruct (bool_decide (rid b = k)); simpl; [now rewrite E | exact IH].
Qed.

(** A store whose content is the desired content gives an empty diff. *)
Lemma diff_in_sync desired L :
  NoDup (Kinto.ids desired) ->
  (forall k, content k L = strip <$> find_by_id k desired) ->
  collection_diff desired L = ([], [], []).
Proof.
  intros Hnd Hc. unfold collection_diff.
  assert (Hfind : forall r, In r desired ->
            exists d, find_by_id (rid r) L = Some d /\ strip d = strip r).
  { intros r Hr. specialize (Hc (rid r)).
    rewrite (find_by_id_unique _ _ Hnd Hr) in Hc. unfold content in Hc.
    destruct (find_by_id (rid r) L) as [d |]; [| discriminate].
    injection Hc as Hc. eauto. }
  f_equal; [f_equal |].
  - apply filter_nil. intros r Hr. destruct (Hfind r Hr) as (d & Hd & _).
    unfold has_id. now rewrite Hd.
  - apply omap_nil. intros r Hr. destruct (Hfind r Hr) as (d & Hd & E).
    rewrite Hd. now rewrite (proj2 (records_equal_strip d r) E).
  - apply filter_nil. intros d Hd.
    destruct (find_by_id_In L d Hd) as [d' Hd'].
    specialize (Hc (rid d)). unfold content in Hc. rewrite Hd' in Hc.
    unfold has_id. destruct (find_by_id (rid d) desired); [reflexivity |].
    discriminate.
Qed.

(** The three lists of a diff never share an identifier. *)
Lemma diff_classes_exclusive A B tc tu td k :
  collection_diff A B = (tc, tu, td) ->
  (In k (Kinto.ids tc) <-> In k (Kinto.ids A) /\ ~ In k (Kinto.ids B))
  /\ (In k (update_ids tu) -> In k (Kinto.ids A) /\ In k (Kinto.ids B))
  /\ (In k (Kinto.ids td) <-> In k (Kinto.ids B) /\ ~ In k (Kinto.ids A)).
Proof.
  intros Hd. repeat split.
  - apply ids_find. apply ids_find in H as [r Hr].
    apply find_by_id_Some in Hr as [Hr <-].
    apply (diff_create_In _ _ _ _ _ _ Hd) in Hr as [Hr _].
    now apply find_by_id_In.
  - intros HB. apply ids_find in H as [r Hr].
    apply find_by_id_Some in Hr as [Hr <-].
    apply (diff_create_In _ _ _ _ _ _ Hd) in Hr as [_ Hr].
    apply ids_find in HB as [d HB]. congruence.
  - intros [HA HB]. apply ids_find in HA as [r Hr].
    apply find_by_id_Some in Hr as [Hr <-].
    unfold Kinto.ids. rewrite <- list_elem_of_In. apply list_elem_of_fmap.
    exists r. split; [reflexivity |]. apply list_elem_of_In.
    apply (diff_create_In _ _ _ _ _ _ Hd). split; [exact Hr |].
    destruct (find_by_id (rid r) B) eqn:E; [| reflexivity].
    exfalso. apply HB. apply ids_find. eauto.
  - unfold update_ids in H. rewrite <- list_elem_of_In in H.
    apply list_elem_of_fmap in H as ([d r] & -> & Hp).
    apply list_elem_of_In in Hp.
    apply (diff_update_In _ _ _ _ _ _ _ Hd) in Hp as (Hr & _ & _).
    apply ids_find. now apply find_by_id_In.
  - unfold update_ids in H. rewrite <- list_elem_of_In in H.
    apply list_elem_of_fmap in H as ([d r] & -> & Hp).
    apply list_elem_of_In in Hp.
    apply (diff_update_In _ _ _ _ _ _ _ Hd) in Hp as (_ & Hf & _).
    apply ids_find. simpl. eauto.
  - apply ids_find. apply ids_find in H as [r Hr].
    apply find_by_id_Some in Hr as [Hr <-].
    apply (diff_delete_In _ _ _ _ _ _ Hd) in Hr as [Hr _].
    now apply find_by_id_In.
  - intros HA. apply ids_find in H as [r Hr].
    apply find_by_id_Some in Hr as [Hr <-].
    apply (diff_delete_In _ _ _ _ _ _ Hd) in Hr as [_ Hr].
    apply ids_find in HA as [d HA]. congruence.
  - intros [HB HA]. apply ids_find in HB as [r Hr].
    apply find_by_id_Some in Hr as [Hr <-].
    unfold Kinto.ids. rewrite <- list_elem_of_In. apply list_elem_of_fmap.
    exists r. split; [reflexivity |]. apply list_elem_of_In.
    apply (diff_delete_In _ _ _ _ _ _ Hd). split; [exact Hr |].
    destruct (find_by_id (rid r) A) eqn:E; [| reflexivity].
    exfalso. apply HA. apply ids_find. eauto.
Qed.

End StoreFacts.

Lemma decide_In_true {A} `{EqDecision A} (k : A) (l : list A) :
  bool_decide (k ∈ l) = true <-> In k l.
Proof. now rewrite bool_decide_eq_true, list_elem_of_In. Qed.

Lemma decide_In_false {A} `{EqDecision A} (k : A) (l : list A) :
  bool_decide (k ∈ l) = false <-> ~ In k l.
Proof. now rewrite bool_decide_eq_false, list_elem_of_In. Qed.

(** C8. Under the diff of the specification every identifier falls in
    exactly one class: to create, to update, to delete, or unchanged (in
    none of the three lists). An identifier is to create exactly when it
    occurs in the desired records only, to delete exactly when it occurs in
    the actual records only; one that is to update, or that occurs
    somewhere and is unchanged, occurs on both sides. Computing the diff
    again gives the same result. *)
Theorem diff_complete_deterministic (A B : list record) (k : option json) :
  let d := Kinto.collection_diff A B in
  (exists c, classes d k = [c])
  /\ (In ToCreate (classes d k) <-> In k (Kinto.ids A) /\ ~ In k (Kinto.ids B))
  /\ (In ToDelete (classes d k) <-> In k (Kinto.ids B) /\ ~ In k (Kinto.ids A))
  /\ (In ToUpdate (classes d k) -> In k (Kinto.ids A) /\ In k (Kinto.ids B))
  /\ (In Unchanged (classes d k) ->
      In k (Kinto.ids A) \/ In k (Kinto.ids B) ->
      In k (Kinto.ids A) /\ In k (Kinto.ids B))
  /\ (forall d1 d2,
        d1 = Kinto.collection_diff A B -> d2 = Kinto.collection_diff A B -> d1 = d2).
Proof.
  intros d. subst d.
  destruct (Kinto.collection_diff A B) as [[tc tu] td] eqn:Hd.
  destruct (diff_classes_exclusive A B tc tu td k Hd) as (Hc & Hu & Hx).
  assert (DA : In k (Kinto.ids A) \/ ~ In k (Kinto.ids A))
    by (rewrite <- list_elem_of_In; destruct (decide (k ∈ Kinto.ids A)); auto).
  assert (DB : In k (Kinto.ids B) \/ ~ In k (Kinto.ids B))
    by (rewrite <- list_elem_of_In; destruct (decide (k ∈ Kinto.ids B)); auto).
  unfold classes.
  destruct (bool_decide (k ∈ Kinto.ids tc)) eqn:Ec;
    [apply decide_In_true in Ec | apply decide_In_false in Ec];
    (destruct (bool_decide (k ∈ Kinto.update_ids tu)) eqn:Eu;
     [apply decide_In_true in Eu | apply decide_In_false in Eu]);
    (destruct (bool_decide (k ∈ Kinto.ids td)) eqn:Ex;
     [apply decide_In_true in Ex | apply decide_In_false in Ex]);
    cbn [orb app]; try (exfalso; tauto).
  all: (split; [eexists; reflexivity |]); cbn [In];
    intuition (try discriminate; subst; auto).
Qed.

Section RoundTrip.
Import Kinto.
Context (cfg : settings).

(** After a run that returned 0 the store holds the desired content. *)
Lemma sync_collection_reaches_desired (desired : list record) (w : world store) :
  NoDup (Kinto.ids desired) ->
  result (sync_collection cfg collection_diff client desired w) = Return 0 ->
  forall k,
    content k (records (remote (final
                 (sync_collection cfg collection_diff client desired w))))
    = strip <$> find_by_id k desired.
Proof.
  intros Hnd Hz k.
  destruct (sync_collection_succeeded cfg collection_diff client desired w Hz)
    as (s1 & dest & tc & tu & td & Hget & Hdiff
        & [[E Hfin] | (ids & s2 & s3 & s4 & res & s5 & Hids & Henter & Hsend
                       & Hres & Hrev & Hfin)]).
  - cbn in Hget. injection Hget as <- <-. injection E as -> -> ->.
    rewrite Hfin.
    exact (batch_reaches_desired desired _ 0 [] [] [] [] k Hnd Hdiff eq_refl).
  - cbn in Hget, Henter, Hsend, Hres, Hrev. injection Hget as <- <-.
    injection Henter as <-. injection Hres as <-.
    destruct (apply_ops (batch_of tc tu ids) (records (remote w), clock (remote w)))
      as [l t] eqn:Hops.
    injection Hsend as <-. cbn in Hrev. injection Hrev as <-.
    assert (Hrec : records (remote (final
              (sync_collection cfg collection_diff client desired w))) = l).
    { destruct Hfin as [-> | Hfin]; [reflexivity |].
      cbn in Hfin. injection Hfin as <-. reflexivity. }
    rewrite Hrec.
    pose proof (batch_reaches_desired desired _ (clock (remote w)) tc tu td ids k
                  Hnd Hdiff Hids) as Hreach.
    now rewrite Hops in Hreach.
Qed.

(** The second run may be given the desired records as the first run
    left them: the first run removes [last_modified] from the records it
    updates, in place. Whatever differs from [desired] in that field
    only is as good. *)
Lemma sync_round_trip_upto (desired desired' : list record) (w : world store) :
  NoDup (Kinto.ids desired) ->
  Forall2 (fun a b => strip a = strip b) desired desired' ->
  let r1 := sync_collection cfg collection_diff client desired w in
  result r1 = Return 0 ->
  let r2 := sync_collection cfg collection_diff client desired' (final r1) in
  collection_diff desired' (records (remote (final r1))) = ([], [], [])
  /\ result r2 = Return 0
  /\ count is_batch_call (events r2) = 0%nat
  /\ count is_review_request (events r2) = 0%nat
  /\ count is_approval (events r2) = 0%nat
  /\ remote (final r2) = remote (final r1).
Proof.
  intros Hnd Hsame r1 Hz r2.
  assert (Hd : collection_diff desired' (records (remote (final r1))) = ([], [], [])).
  { apply diff_in_sync.
    - now rewrite (same_content_ids _ _ Hsame).
    - intros k. rewrite (same_content_find _ _ k Hsame).
      now apply sync_collection_reaches_desired. }
  split; [exact Hd |]. subst r2.
  rewrite (sync_collection_noop cfg collection_diff client desired' (final r1)
             (remote (final r1)) (records (remote (final r1))) eq_refl Hd).
  cbn [result events final remote].
  repeat split; reflexivity.
Qed.

(** C9. Take desired records with pairwise distinct identifiers and a
    run of [sync_collection] against the store of the specification
    that returned 0. A second run with the same desired records,
    started where the first ended, computes an empty diff and returns 0
    without a batch call, a review request or an approval, and leaves
    the store as it was. *)
Theorem sync_round_trip (desired : list record) (w : world store) :
  NoDup (Kinto.ids desired) ->
  let r1 := sync_collection cfg collection_diff client desired w in
  result r1 = Return 0 ->
  let r2 := sync_collection cfg collection_diff client desired (final r1) in
  collection_diff desired (records (remote (final r1))) = ([], [], [])
  /\ result r2 = Return 0
  /\ count is_batch_call (events r2) = 0%nat
  /\ count is_review_request (events r2) = 0%nat
  /\ count is_approval (events r2) = 0%nat
  /\ remote (final r2) = remote (final r1).
Proof.
  intros Hnd. apply sync_round_trip_upto; [exact Hnd |].
  clear Hnd. induction desired; constructor; auto.
Qed.

End RoundTrip.

Lemma sync_round_trip_witness :
  let r1 := sync_collection (Sample.cfg "prod") Kinto.collection_diff Kinto.client
              Sample.desired Sample.stale in
  let r2 := sync_collection (Sample.cfg "prod") Kinto.collection_diff Kinto.client
              Sample.desired (final r1) in
  batch_applied (events r1) = true
  /\ result r1 = Return 0
  /\ result r2 = Return 0
  /\ count is_batch_call (events r2) = 0%nat.
Proof.
  assert (Hnd : NoDup (Kinto.ids Sample.desired))
    by (apply (bool_decide_unpack _); vm_compute; exact I).
  assert (Hz : result (sync_collection (Sample.cfg "prod") Kinto.collection_diff
                         Kinto.client Sample.desired Sample.stale) = Return 0)
    by (vm_compute; reflexivity).
  destruct (sync_round_trip (Sample.cfg "prod") Sample.desired Sample.stale Hnd Hz)
    as (_ & H2 & H3 & _).
  split; [vm_compute; reflexivity |]. split; [exact Hz |]. split; assumption.
Defined.
